(** * fsm-generator: a Moore-machine engine

    Shallow embedding of the two versions of the [FiniteStateMachine]
    class of the repository:

    - [Query]  : [src/src/index.ts] (and its compiled form [src/index.js]),
      whose [transition], [isAcceptingState] and [getOutput] take the state
      as an argument;
    - [Driver] : [src/unnamed/part_000], whose [transition],
      [isInAcceptingState] and [getOutput] work on the current state and
      which adds [reset].

    Strings are sequences of UTF-16 code units, [Set] and [Map] keep
    insertion order as in JavaScript, a thrown exception is a [Throw]
    result, and the only mutable field after construction, [currentState],
    is threaded through a small state-and-exception monad. *)

From Stdlib Require Import List NArith ZArith Ascii String Bool Lia.
Import ListNotations.

Set Implicit Arguments.

(* ================================================================= *)
(** ** JavaScript strings *)

(** A string is the list of its UTF-16 code units. *)
Definition jsstring := list N.

(** String literal of the source, one code unit per character. *)
Definition js (s : string) : jsstring :=
  map N_of_ascii (list_ascii_of_string s).

Definition str_eq_dec : forall a b : jsstring, {a = b} + {a <> b} :=
  list_eq_dec N.eq_dec.

(** [a === b] on strings. *)
Definition str_eqb (a b : jsstring) : bool :=
  if str_eq_dec a b then true else false.

(** The empty string. *)
Definition emptyString : jsstring := [].

(** The separator of the transition keys, [","]. *)
Definition comma : N := 44%N.

(** The template literal [`${a},${b}`]. *)
Definition key_of (a b : jsstring) : jsstring := a ++ comma :: b.

(** A string is falsy exactly when it is empty. *)
Definition truthy_str (s : jsstring) : bool :=
  match s with [] => false | _ :: _ => true end.

Definition is_high_surrogate (c : N) : bool :=
  (55296 <=? c)%N && (c <=? 56319)%N.

Definition is_low_surrogate (c : N) : bool :=
  (56320 <=? c)%N && (c <=? 57343)%N.

(** [for (const symbol of input)]: the string iterator yields one string
    per code point, a surrogate pair being kept together. *)
Fixpoint codePoints (s : jsstring) : list jsstring :=
  match s with
  | [] => []
  | c :: rest =>
      match rest with
      | d :: rest' =>
          if is_high_surrogate c && is_low_surrogate d
          then [c; d] :: codePoints rest'
          else [c] :: codePoints rest
      | [] => [[c]]
      end
  end.

(** [s.split(sep)] for a one-unit separator: never the empty array. *)
Fixpoint split (sep : N) (s : jsstring) : list jsstring :=
  match s with
  | [] => [[]]
  | c :: rest =>
      if (c =? sep)%N then [] :: split sep rest
      else match split sep rest with
           | piece :: pieces => (c :: piece) :: pieces
           | [] => [[c]]
           end
  end.

(* ================================================================= *)
(** ** JavaScript values carried as outputs *)

(** The output type [O] is unconstrained in the source; the values it can
    hold are represented by the primitive values below.  Numbers are only
    stored and compared with [undefined], never computed with. *)
Inductive jsvalue : Type :=
| VUndefined
| VNull
| VBool (b : bool)
| VNum (n : Z)
| VStr (s : jsstring).

(** JavaScript's falsy values among [jsvalue]. *)
Definition falsy (v : jsvalue) : bool :=
  match v with
  | VUndefined | VNull => true
  | VBool b => negb b
  | VNum n => (n =? 0)%Z
  | VStr s => negb (truthy_str s)
  end.

(** [v !== undefined]. *)
Definition is_defined (v : jsvalue) : bool :=
  match v with VUndefined => false | _ => true end.

(* ================================================================= *)
(** ** [Set<string>] and [Map<string, V>] with insertion order *)

Module JsSet.

Definition t := list jsstring.

Definition empty : t := [].

Definition has (x : jsstring) (s : t) : bool := existsb (str_eqb x) s.

Definition add (x : jsstring) (s : t) : t :=
  if has x s then s else s ++ [x].

(** [new Set(array)]. *)
Definition of_array (l : list jsstring) : t :=
  fold_left (fun s x => add x s) l empty.

(** [Array.from(set)]. *)
Definition to_array (s : t) : list jsstring := s.

End JsSet.

Module JsMap.

Section WithValue.
Variable V : Type.

Definition t := list (jsstring * V).

Definition empty : t := [].

(** [map.get(k)], [None] standing for [undefined]. *)
Fixpoint get (k : jsstring) (m : t) : option V :=
  match m with
  | [] => None
  | (k', v) :: rest => if str_eqb k k' then Some v else get k rest
  end.

(** [map.set(k, v)]: an existing key keeps its position. *)
Fixpoint set (k : jsstring) (v : V) (m : t) : t :=
  match m with
  | [] => [(k, v)]
  | (k', v') :: rest =>
      if str_eqb k k' then (k', v) :: rest else (k', v') :: set k v rest
  end.

(** [new Map(entries)]. *)
Definition of_entries (l : list (jsstring * V)) : t :=
  fold_left (fun m kv => set (fst kv) (snd kv) m) l empty.

(** The order in which [map.forEach] visits the entries. *)
Definition entries (m : t) : list (jsstring * V) := m.

End WithValue.

Arguments empty {V}.

End JsMap.

(* ================================================================= *)
(** ** Exceptions and the state-and-exception monad *)

Inductive exn : Type :=
| InvalidStateError (state : jsstring)
| InvalidSymbolError (symbol : jsstring)
| Error (message : jsstring).

Inductive result (A : Type) : Type :=
| Ok (a : A)
| Throw (e : exn).

Arguments Ok {A} a.
Arguments Throw {A} e.

(** A method body: it reads and writes [this] and returns or throws; the
    object survives a throw. *)
Definition M (S A : Type) : Type := S -> result A * S.

Definition ret {S A} (a : A) : M S A := fun this => (Ok a, this).

Definition throw {S A} (e : exn) : M S A := fun this => (Throw e, this).

Definition bind {S A B} (c : M S A) (k : A -> M S B) : M S B :=
  fun this =>
    match c this with
    | (Ok a, this') => k a this'
    | (Throw e, this') => (Throw e, this')
    end.

Definition get_this {S} : M S S := fun this => (Ok this, this).

Definition put_this {S} (this' : S) : M S unit := fun _ => (Ok tt, this').

(** A pure method that may throw, called inside a body. *)
Definition lift {S A} (r : result A) : M S A := fun this => (r, this).

Declare Scope js_scope.
Delimit Scope js_scope with js_m.
Notation "x <- c ;; k" := (bind c (fun x => k))
  (at level 61, c at next level, right associativity) : js_scope.
Notation "c ;; k" := (bind c (fun _ => k))
  (at level 61, right associativity) : js_scope.

(** [for (const x of xs) body]. *)
Fixpoint for_of {S A} (xs : list A) (body : A -> M S unit) : M S unit :=
  match xs with
  | [] => ret tt
  | x :: rest => bind (body x) (fun _ => for_of rest body)
  end.

(* ================================================================= *)
(** ** Configuration *)

Definition StateName := jsstring.
Definition InputSymbol := jsstring.
Definition Transition : Type := StateName * InputSymbol * StateName.
Definition Output : Type := StateName * jsvalue.

Module Config.
Record FSMConfig : Type := {
  states : list StateName;
  alphabet : list InputSymbol;
  initialState : StateName;
  acceptingStates : list StateName;
  transitions : list Transition;
  outputs : list Output
}.
End Config.

Record ProcessResult : Type := {
  accepted : bool;
  output : jsvalue;
  finalState : StateName
}.

Local Open Scope js_scope.

(** [nextState || null] for [nextState : string | undefined]; [None] is
    [undefined] on the way in and [null] on the way out. *)
Definition or_null (nextState : option StateName) : option StateName :=
  match nextState with
  | Some s => if truthy_str s then Some s else None
  | None => None
  end.

(** [output !== undefined ? output : null]. *)
Definition defined_or_null (output : jsvalue) : jsvalue :=
  if is_defined output then output else VNull.

(** [outputs.get(state)] as a JavaScript value. *)
Definition get_value (state : StateName) (m : JsMap.t jsvalue) : jsvalue :=
  match JsMap.get state m with
  | Some v => v
  | None => VUndefined
  end.

(** [const [fromState, input] = key.split(",")]: the first two pieces.
    [split] never returns fewer than one piece and every key written by a
    constructor contains a comma (lemma [split_key_of_length]), so the
    defaults, which stand for [undefined], are not reached on a machine. *)
Definition first_two (pieces : list jsstring) : jsstring * jsstring :=
  (nth 0 pieces [], nth 1 pieces []).

(** The message of the generic [Error] thrown by [process]. *)
Definition no_transition_message (state symbol : jsstring) : jsstring :=
  js "No transition defined for state " ++ state
    ++ js " with input " ++ symbol.

(* ================================================================= *)
(** ** [src/src/index.ts]: queries take the state as an argument *)

Module Query.

Record FiniteStateMachine : Type := {
  states : JsSet.t;
  alphabet : JsSet.t;
  initialState : StateName;
  currentState : StateName;
  acceptingStates : JsSet.t;
  transitionFunction : JsMap.t StateName;
  outputFunction : JsMap.t jsvalue
}.

Definition set_currentState (s : StateName) (this : FiniteStateMachine)
  : FiniteStateMachine :=
  {| states := states this;
     alphabet := alphabet this;
     initialState := initialState this;
     currentState := s;
     acceptingStates := acceptingStates this;
     transitionFunction := transitionFunction this;
     outputFunction := outputFunction this |}.

Definition set_transitionFunction (m : JsMap.t StateName)
  (this : FiniteStateMachine) : FiniteStateMachine :=
  {| states := states this;
     alphabet := alphabet this;
     initialState := initialState this;
     currentState := currentState this;
     acceptingStates := acceptingStates this;
     transitionFunction := m;
     outputFunction := outputFunction this |}.

Definition isValidState (this : FiniteStateMachine) (state : StateName)
  : bool := JsSet.has state (states this).

Definition isValidSymbol (this : FiniteStateMachine) (symbol : InputSymbol)
  : bool := JsSet.has symbol (alphabet this).

(** The fields as assigned at the top of the constructor. *)
Definition fields (config : Config.FSMConfig) : FiniteStateMachine :=
  {| states := JsSet.of_array (Config.states config);
     alphabet := JsSet.of_array (Config.alphabet config);
     initialState := Config.initialState config;
     currentState := Config.initialState config;
     acceptingStates := JsSet.of_array (Config.acceptingStates config);
     transitionFunction := JsMap.empty;
     outputFunction := JsMap.of_entries (Config.outputs config) |}.

Definition check_accepting (state : StateName) : M FiniteStateMachine unit :=
  this <- get_this ;;
  if negb (isValidState this state)
  then throw (InvalidStateError state)
  else ret tt.

Definition add_transition (tr : Transition) : M FiniteStateMachine unit :=
  let '(fromState, input, toState) := tr in
  this <- get_this ;;
  if negb (isValidState this fromState) || negb (isValidState this toState)
  then throw (InvalidStateError (fromState ++ js " or " ++ toState))
  else if negb (isValidSymbol this input)
  then throw (InvalidSymbolError input)
  else put_this (set_transitionFunction
                   (JsMap.set (key_of fromState input) toState
                      (transitionFunction this)) this).

Definition check_output (o : Output) : M FiniteStateMachine unit :=
  let '(state, _) := o in
  this <- get_this ;;
  if negb (isValidState this state)
  then throw (InvalidStateError state)
  else ret tt.

Definition constructor_body (config : Config.FSMConfig)
  : M FiniteStateMachine unit :=
  this <- get_this ;;
  (if negb (isValidState this (initialState this))
   then throw (InvalidStateError (initialState this))
   else ret tt) ;;
  for_of (Config.acceptingStates config) check_accepting ;;
  for_of (Config.transitions config) add_transition ;;
  for_of (Config.outputs config) check_output.

(** [new FiniteStateMachine(config)]: the object, or the exception. *)
Definition constructor (config : Config.FSMConfig)
  : result FiniteStateMachine :=
  match constructor_body config (fields config) with
  | (Ok _, this) => Ok this
  | (Throw e, _) => Throw e
  end.

Definition transition (this : FiniteStateMachine)
  (currentState : StateName) (input : InputSymbol)
  : result (option StateName) :=
  if negb (isValidState this currentState)
  then Throw (InvalidStateError currentState)
  else if negb (isValidSymbol this input)
  then Throw (InvalidSymbolError input)
  else
    let nextState :=
      JsMap.get (key_of currentState input) (transitionFunction this) in
    Ok (or_null nextState).

Definition isAcceptingState (this : FiniteStateMachine) (state : StateName)
  : result bool :=
  if negb (isValidState this state)
  then Throw (InvalidStateError state)
  else Ok (JsSet.has state (acceptingStates this)).

Definition getOutput (this : FiniteStateMachine) (state : StateName)
  : result jsvalue :=
  if negb (isValidState this state)
  then Throw (InvalidStateError state)
  else Ok (get_value state (outputFunction this)).

Definition process_symbol (symbol : InputSymbol)
  : M FiniteStateMachine unit :=
  this <- get_this ;;
  if negb (isValidSymbol this symbol)
  then throw (InvalidSymbolError symbol)
  else
    nextState <- lift (transition this (currentState this) symbol) ;;
    match nextState with
    | None =>
        throw (Error (no_transition_message (currentState this) symbol))
    | Some next => put_this (set_currentState next this)
    end.

Definition process (input : jsstring) : M FiniteStateMachine ProcessResult :=
  this <- get_this ;;
  put_this (set_currentState (initialState this) this) ;;
  for_of (codePoints input) process_symbol ;;
  this <- get_this ;;
  output <- lift (getOutput this (currentState this)) ;;
  accepted <- lift (isAcceptingState this (currentState this)) ;;
  ret {| accepted := accepted;
         output := defined_or_null output;
         finalState := currentState this |}.

(** [getStructure("object")]; the ["json"] format is the
    [JSON.stringify] of the same record. *)
Definition getStructure (this : FiniteStateMachine) : Config.FSMConfig :=
  {| Config.states := JsSet.to_array (states this);
     Config.alphabet := JsSet.to_array (alphabet this);
     Config.initialState := initialState this;
     Config.acceptingStates := JsSet.to_array (acceptingStates this);
     Config.transitions :=
       map (fun kv : jsstring * StateName =>
              let '(key, toState) := kv in
              let '(fromState, input) := first_two (split comma key) in
              (fromState, input, toState))
           (JsMap.entries (transitionFunction this));
     Config.outputs := JsMap.entries (outputFunction this) |}.

Definition getCurrentState (this : FiniteStateMachine) : StateName :=
  currentState this.

End Query.

(* ================================================================= *)
(** ** [src/unnamed/part_000]: queries work on the current state *)

Module Driver.

Record FiniteStateMachine : Type := {
  states : JsSet.t;
  alphabet : JsSet.t;
  initialState : StateName;
  currentState : StateName;
  acceptingStates : JsSet.t;
  transitionMap : JsMap.t StateName;
  outputMap : JsMap.t jsvalue
}.

Definition set_currentState (s : StateName) (this : FiniteStateMachine)
  : FiniteStateMachine :=
  {| states := states this;
     alphabet := alphabet this;
     initialState := initialState this;
     currentState := s;
     acceptingStates := acceptingStates this;
     transitionMap := transitionMap this;
     outputMap := outputMap this |}.

Definition set_transitionMap (m : JsMap.t StateName)
  (this : FiniteStateMachine) : FiniteStateMachine :=
  {| states := states this;
     alphabet := alphabet this;
     initialState := initialState this;
     currentState := currentState this;
     acceptingStates := acceptingStates this;
     transitionMap := m;
     outputMap := outputMap this |}.

Definition isValidState (this : FiniteStateMachine) (state : StateName)
  : bool := JsSet.has state (states this).

Definition isValidSymbol (this : FiniteStateMachine) (symbol : InputSymbol)
  : bool := JsSet.has symbol (alphabet this).

(** The fields as assigned at the top of the constructor. *)
Definition fields (config : Config.FSMConfig) : FiniteStateMachine :=
  {| states := JsSet.of_array (Config.states config);
     alphabet := JsSet.of_array (Config.alphabet config);
     initialState := Config.initialState config;
     currentState := Config.initialState config;
     acceptingStates := JsSet.of_array (Config.acceptingStates config);
     transitionMap := JsMap.empty;
     outputMap := JsMap.of_entries (Config.outputs config) |}.

Definition check_state (state : StateName) : M FiniteStateMachine unit :=
  this <- get_this ;;
  if negb (isValidState this state)
  then throw (InvalidStateError state)
  else ret tt.

Definition check_output (o : Output) : M FiniteStateMachine unit :=
  let '(state, _) := o in check_state state.

Definition validateStates (config : Config.FSMConfig)
  : M FiniteStateMachine unit :=
  this <- get_this ;;
  check_state (initialState this) ;;
  for_of (Config.acceptingStates config) check_state ;;
  for_of (Config.outputs config) check_output.

Definition add_transition (tr : Transition) : M FiniteStateMachine unit :=
  let '(fromState, input, toState) := tr in
  this <- get_this ;;
  if negb (isValidState this fromState) || negb (isValidState this toState)
  then throw (InvalidStateError
                (if isValidState this fromState then toState else fromState))
  else if negb (isValidSymbol this input)
  then throw (InvalidSymbolError input)
  else put_this (set_transitionMap
                   (JsMap.set (key_of fromState input) toState
                      (transitionMap this)) this).

Definition buildTransitionMap (transitions : list Transition)
  : M FiniteStateMachine unit :=
  for_of transitions add_transition.

(** [new FiniteStateMachine(config)]: the object, or the exception. *)
Definition constructor (config : Config.FSMConfig)
  : result FiniteStateMachine :=
  match (validateStates config ;;
         buildTransitionMap (Config.transitions config)) (fields config) with
  | (Ok _, this) => Ok this
  | (Throw e, _) => Throw e
  end.

(** [transition(input)]: moves the machine when a truthy destination is
    found. *)
Definition transition (input : InputSymbol)
  : M FiniteStateMachine (option StateName) :=
  this <- get_this ;;
  if negb (isValidSymbol this input)
  then throw (InvalidSymbolError input)
  else
    let nextState :=
      JsMap.get (key_of (currentState this) input) (transitionMap this) in
    (match nextState with
     | Some next =>
         if truthy_str next then put_this (set_currentState next this)
         else ret tt
     | None => ret tt
     end) ;;
    ret (or_null nextState).

Definition isInAcceptingState (this : FiniteStateMachine) : bool :=
  JsSet.has (currentState this) (acceptingStates this).

Definition getOutput (this : FiniteStateMachine) : jsvalue :=
  get_value (currentState this) (outputMap this).

Definition reset : M FiniteStateMachine unit :=
  this <- get_this ;;
  put_this (set_currentState (initialState this) this).

Definition getProcessResult : M FiniteStateMachine ProcessResult :=
  this <- get_this ;;
  let output := getOutput this in
  ret {| accepted := isInAcceptingState this;
         output := defined_or_null output;
         finalState := currentState this |}.

Definition process_symbol (symbol : InputSymbol) : M FiniteStateMachine unit :=
  nextState <- transition symbol ;;
  match nextState with
  | None =>
      this <- get_this ;;
      throw (Error (no_transition_message (currentState this) symbol))
  | Some _ => ret tt
  end.

Definition process (input : jsstring) : M FiniteStateMachine ProcessResult :=
  reset ;;
  for_of (codePoints input) process_symbol ;;
  getProcessResult.

(** [getStructure("object")]; the ["json"] format is the
    [JSON.stringify] of the same record. *)
Definition getStructure (this : FiniteStateMachine) : Config.FSMConfig :=
  {| Config.states := JsSet.to_array (states this);
     Config.alphabet := JsSet.to_array (alphabet this);
     Config.initialState := initialState this;
     Config.acceptingStates := JsSet.to_array (acceptingStates this);
     Config.transitions :=
       map (fun kv : jsstring * StateName =>
              let '(key, toState) := kv in
              let '(fromState, input) := first_two (split comma key) in
              (fromState, input, toState))
           (JsMap.entries (transitionMap this));
     Config.outputs := JsMap.entries (outputMap this) |}.

Definition getCurrentState (this : FiniteStateMachine) : StateName :=
  currentState this.

End Driver.

(* ================================================================= *)
(** ** Machines used in the examples *)

(** The traffic light of the README. *)
Definition trafficLight : Config.FSMConfig :=
  {| Config.states := [js "Red"; js "Yellow"; js "Green"];
     Config.alphabet := [js "Next"];
     Config.initialState := js "Red";
     Config.acceptingStates := [js "Red"; js "Green"];
     Config.transitions :=
       [(js "Red", js "Next", js "Green");
        (js "Green", js "Next", js "Yellow");
        (js "Yellow", js "Next", js "Red")];
     Config.outputs :=
       [(js "Red", VStr (js "Stop"));
        (js "Yellow", VStr (js "Prepare to stop"));
        (js "Green", VStr (js "Go"))] |}.

(** The machine of the test suite ([src/unnamed/part_001]). *)
Definition abcMachine : Config.FSMConfig :=
  {| Config.states := [js "A"; js "B"; js "C"];
     Config.alphabet := [js "0"; js "1"];
     Config.initialState := js "A";
     Config.acceptingStates := [js "C"];
     Config.transitions :=
       [(js "A", js "0", js "B"); (js "A", js "1", js "A");
        (js "B", js "0", js "C"); (js "B", js "1", js "A");
        (js "C", js "0", js "C"); (js "C", js "1", js "C")];
     Config.outputs :=
       [(js "A", VStr (js "Output A"));
        (js "B", VStr (js "Output B"));
        (js "C", VStr (js "Output C"))] |}.


(** A machine with a state named by the empty string. *)
Definition emptyNamed : Config.FSMConfig :=
  {| Config.states := [js "A"; emptyString];
     Config.alphabet := [js "x"];
     Config.initialState := js "A";
     Config.acceptingStates := [];
     Config.transitions := [(js "A", js "x", emptyString)];
     Config.outputs := [] |}.

(** A machine with a comma in a state name. *)
Definition commaNamed : Config.FSMConfig :=
  {| Config.states := [js "a,b"; js "q"];
     Config.alphabet := [js "c"];
     Config.initialState := js "q";
     Config.acceptingStates := [js "q"];
     Config.transitions := [(js "a,b", js "c", js "q")];
     Config.outputs := [] |}.

(** Two declared pairs, [("a", "b,c")] and [("a,b", "c")], that are
    written [a,b,c] once joined by a comma. *)
Definition collidingKeys : Config.FSMConfig :=
  {| Config.states := [js "a"; js "a,b"; js "q"; js "r"];
     Config.alphabet := [js "b,c"; js "c"];
     Config.initialState := js "a";
     Config.acceptingStates := [];
     Config.transitions :=
       [(js "a", js "b,c", js "q"); (js "a,b", js "c", js "r")];
     Config.outputs := [] |}.

(** An undeclared source state in a transition. *)
Definition badSource : Config.FSMConfig :=
  {| Config.states := [js "A"];
     Config.alphabet := [js "x"];
     Config.initialState := js "A";
     Config.acceptingStates := [];
     Config.transitions := [(js "S", js "x", js "A")];
     Config.outputs := [] |}.

(** An undeclared symbol in a transition and an undeclared state in an
    output. *)
Definition badSymbolAndOutput : Config.FSMConfig :=
  {| Config.states := [js "A"];
     Config.alphabet := [js "x"];
     Config.initialState := js "A";
     Config.acceptingStates := [];
     Config.transitions := [(js "A", js "z", js "A")];
     Config.outputs := [(js "Q", VNum 1)] |}.

(** Outputs that are falsy values, and a state without output. *)
Definition falsyOutputs : Config.FSMConfig :=
  {| Config.states := [js "E"; js "Z"; js "F"; js "N"];
     Config.alphabet := [js "e"; js "z"; js "f"; js "n"];
     Config.initialState := js "E";
     Config.acceptingStates := [];
     Config.transitions :=
       [(js "E", js "z", js "Z"); (js "E", js "f", js "F");
        (js "E", js "n", js "N")];
     Config.outputs :=
       [(js "E", VStr (emptyString)); (js "Z", VNum 0); (js "F", VBool false)] |}.

(** One state, whose output is [out] when given. *)
Definition oneState (out : option jsvalue) : Config.FSMConfig :=
  {| Config.states := [js "S"];
     Config.alphabet := [];
     Config.initialState := js "S";
     Config.acceptingStates := [];
     Config.transitions := [];
     Config.outputs :=
       match out with Some v => [(js "S", v)] | None => [] end |}.

(* ================================================================= *)
(** ** Sequences of calls *)

Module QueryCalls.

(** The public methods of [src/src/index.ts]. *)
Inductive call : Type :=
| IsValidState (state : StateName)
| IsValidSymbol (symbol : InputSymbol)
| Transition (state : StateName) (input : InputSymbol)
| IsAcceptingState (state : StateName)
| GetOutput (state : StateName)
| Process (input : jsstring)
| GetStructure
| GetCurrentState.

(** The object after one call, whether the call returned or threw. *)
Definition perform (this : Query.FiniteStateMachine) (c : call)
  : Query.FiniteStateMachine :=
  match c with
  | Process input => snd (Query.process input this)
  | IsValidState _ | IsValidSymbol _ | Transition _ _ | IsAcceptingState _
  | GetOutput _ | GetStructure | GetCurrentState => this
  end.

Definition perform_all (calls : list call) (this : Query.FiniteStateMachine)
  : Query.FiniteStateMachine :=
  fold_left perform calls this.

End QueryCalls.

Module DriverCalls.

(** The public methods of [src/unnamed/part_000]. *)
Inductive call : Type :=
| IsValidState (state : StateName)
| IsValidSymbol (symbol : InputSymbol)
| Transition (input : InputSymbol)
| IsInAcceptingState
| GetOutput
| Process (input : jsstring)
| GetStructure
| GetCurrentState
| Reset.

(** The object after one call, whether the call returned or threw. *)
Definition perform (this : Driver.FiniteStateMachine) (c : call)
  : Driver.FiniteStateMachine :=
  match c with
  | Transition input => snd (Driver.transition input this)
  | Process input => snd (Driver.process input this)
  | Reset => snd (Driver.reset this)
  | IsValidState _ | IsValidSymbol _ | IsInAcceptingState | GetOutput
  | GetStructure | GetCurrentState => this
  end.

Definition perform_all (calls : list call) (this : Driver.FiniteStateMachine)
  : Driver.FiniteStateMachine :=
  fold_left perform calls this.

End DriverCalls.

(** [reset()] called [n] times in a row. *)
Fixpoint resets (n : nat) (this : Driver.FiniteStateMachine)
  : Driver.FiniteStateMachine :=
  match n with
  | O => this
  | S n' => resets n' (snd (Driver.reset this))
  end.

(* ================================================================= *)
(** ** Specification-level notions *)

(** The entry a configuration gives for key [k]; the last one wins. *)
Definition assoc_last {V} (k : jsstring) (l : list (jsstring * V))
  : option V :=
  match find (fun kv => str_eqb k (fst kv)) (rev l) with
  | Some kv => Some (snd kv)
  | None => None
  end.

(** Membership in a declared sequence. *)
Definition declared (x : jsstring) (l : list jsstring) : bool :=
  existsb (str_eqb x) l.

(** The first element of [l] on which [f] reports a violation. *)
Fixpoint first_violation {A} (f : A -> option exn) (l : list A)
  : option exn :=
  match l with
  | [] => None
  | x :: rest =>
      match f x with
      | Some e => Some e
      | None => first_violation f rest
      end
  end.

Definition or_else (a b : option exn) : option exn :=
  match a with Some e => Some e | None => b end.

Definition state_violation (sts : list StateName) (s : StateName)
  : option exn :=
  if declared s sts then None else Some (InvalidStateError s).

(** The violation of one transition; [name] chooses what the
    [InvalidState] error carries, from the source, the destination and
    whether the source is declared. *)
Definition transition_violation
  (name : StateName -> StateName -> bool -> jsstring)
  (sts : list StateName) (alph : list InputSymbol) (tr : Transition)
  : option exn :=
  let '(fromState, input, toState) := tr in
  if negb (declared fromState sts) || negb (declared toState sts)
  then Some (InvalidStateError
               (name fromState toState (declared fromState sts)))
  else if negb (declared input alph)
  then Some (InvalidSymbolError input)
  else None.

Definition check_a (c : Config.FSMConfig) : option exn :=
  state_violation (Config.states c) (Config.initialState c).

Definition check_b (c : Config.FSMConfig) : option exn :=
  first_violation (state_violation (Config.states c))
    (Config.acceptingStates c).

Definition check_c (name : StateName -> StateName -> bool -> jsstring)
  (c : Config.FSMConfig) : option exn :=
  first_violation
    (transition_violation name (Config.states c) (Config.alphabet c))
    (Config.transitions c).

Definition check_d (c : Config.FSMConfig) : option exn :=
  first_violation (fun o : Output => state_violation (Config.states c) (fst o))
    (Config.outputs c).

(** The name carried by the error of [src/src/index.ts]. *)
Definition name_both (fromState toState : StateName) (_ : bool) : jsstring :=
  fromState ++ js " or " ++ toState.

(** The name carried by the error of [src/unnamed/part_000]. *)
Definition name_source_first (fromState toState : StateName)
  (from_declared : bool) : jsstring :=
  if from_declared then toState else fromState.

(** The name the specification asks for: the undeclared one of the two,
    and [prefer_destination] decides when both are undeclared. *)
Definition name_offending (prefer_destination : bool) (sts : list StateName)
  (fromState toState : StateName) (from_declared : bool) : jsstring :=
  if from_declared then toState
  else if declared toState sts then fromState
  else if prefer_destination then toState else fromState.

(** Validation in the order the specification gives: initial state,
    accepting states, transitions, outputs. *)
Definition specified_violation (prefer_destination : bool)
  (c : Config.FSMConfig) : option exn :=
  or_else (check_a c)
    (or_else (check_b c)
       (or_else
          (check_c (name_offending prefer_destination (Config.states c)) c)
          (check_d c))).

(** Validation as [src/src/index.ts] performs it. *)
Definition query_violation (c : Config.FSMConfig) : option exn :=
  or_else (check_a c)
    (or_else (check_b c) (or_else (check_c name_both c) (check_d c))).

(** Validation as [src/unnamed/part_000] performs it. *)
Definition driver_violation (c : Config.FSMConfig) : option exn :=
  or_else (check_a c)
    (or_else (check_b c)
       (or_else (check_d c) (check_c name_source_first c))).

Definition thrown {A} (r : result A) : option exn :=
  match r with Ok _ => None | Throw e => Some e end.

(** The state reached from [q] along [symbols] when every step of the
    pure query returns a destination. *)
Fixpoint follows (this : Query.FiniteStateMachine) (q : StateName)
  (symbols : list InputSymbol) : option StateName :=
  match symbols with
  | [] => Some q
  | a :: rest =>
      match Query.transition this q a with
      | Ok (Some q') => follows this q' rest
      | _ => None
      end
  end.

(** The destination the stateful [transition] of [src/unnamed/part_000]
    finds for a declared symbol [a] when the current state is [q]. *)
Definition driver_next (this : Driver.FiniteStateMachine)
  (q : StateName) (a : InputSymbol) : option StateName :=
  if Driver.isValidSymbol this a
  then or_null (JsMap.get (key_of q a) (Driver.transitionMap this))
  else None.

(** The state reached from [q] along [symbols] when every step finds a
    destination. *)
Fixpoint driver_follows (this : Driver.FiniteStateMachine) (q : StateName)
  (symbols : list InputSymbol) : option StateName :=
  match symbols with
  | [] => Some q
  | a :: rest =>
      match driver_next this q a with
      | Some q' => driver_follows this q' rest
      | None => None
      end
  end.

(** The invariant of a machine of [src/src/index.ts]: the initial and the
    current state are declared, and so is every destination stored in the
    transition table. *)
Definition query_valid (this : Query.FiniteStateMachine) : Prop :=
  Query.isValidState this (Query.initialState this) = true /\
  Query.isValidState this (Query.currentState this) = true /\
  forall k v, In (k, v) (Query.transitionFunction this) ->
              Query.isValidState this v = true.

(** The same invariant for [src/unnamed/part_000]. *)
Definition driver_valid (this : Driver.FiniteStateMachine) : Prop :=
  Driver.isValidState this (Driver.initialState this) = true /\
  Driver.isValidState this (Driver.currentState this) = true /\
  forall k v, In (k, v) (Driver.transitionMap this) ->
              Driver.isValidState this v = true.

(** The transition table a configuration describes: one entry per key,
    the last transition given for a key winning. *)
Definition table_of (trs : list Transition) : JsMap.t StateName :=
  JsMap.of_entries
    (map (fun tr : Transition =>
            let '(fromState, input, toState) := tr in
            (key_of fromState input, toState)) trs).

(** The object [src/src/index.ts] builds from a configuration that passes
    validation. *)
Definition query_built (c : Config.FSMConfig) : Query.FiniteStateMachine :=
  Query.set_transitionFunction (table_of (Config.transitions c))
    (Query.fields c).

(** The object [src/unnamed/part_000] builds from a configuration that
    passes validation. *)
Definition driver_built (c : Config.FSMConfig) : Driver.FiniteStateMachine :=
  Driver.set_transitionMap (table_of (Config.transitions c))
    (Driver.fields c).

(** What stops the loop of [process] of [src/src/index.ts] at symbol [a]
    in state [q]: an undeclared symbol, an undeclared current state, or a
    pair for which the pure query returns [null]. *)
Definition query_step_fails (this : Query.FiniteStateMachine)
  (q : StateName) (a : InputSymbol) (e : exn) : Prop :=
  (Query.isValidSymbol this a = false /\ e = InvalidSymbolError a) \/
  (Query.isValidSymbol this a = true /\ Query.isValidState this q = false /\
   e = InvalidStateError q) \/
  (Query.isValidSymbol this a = true /\ Query.transition this q a = Ok None /\
   e = Error (no_transition_message q a)).

(* ================================================================= *)
(** ** Notions used to relate the machine to its configuration *)

(** What the constructors require of a configuration. *)
Definition well_formed (c : Config.FSMConfig) : Prop :=
  In (Config.initialState c) (Config.states c) /\
  (forall s, In s (Config.acceptingStates c) -> In s (Config.states c)) /\
  (forall f i t, In (f, i, t) (Config.transitions c) ->
     In f (Config.states c) /\ In t (Config.states c) /\
     In i (Config.alphabet c)) /\
  (forall s v, In (s, v) (Config.outputs c) -> In s (Config.states c)).

(** The entry of the transition table written for one transition. *)
Definition keyed (tr : Transition) : jsstring * StateName :=
  let '(fromState, input, toState) := tr in (key_of fromState input, toState).

(** The source and the symbol of a transition. *)
Definition pair_of (tr : Transition) : StateName * InputSymbol :=
  let '(fromState, input, _) := tr in (fromState, input).

(** The destination of the last transition a configuration gives for the
    state [s] and the symbol [a]. *)
Definition last_transition (s : StateName) (a : InputSymbol)
  (trs : list Transition) : option StateName :=
  match find (fun tr : Transition =>
                str_eqb s (fst (pair_of tr)) && str_eqb a (snd (pair_of tr)))
             (rev trs) with
  | Some (_, _, toState) => Some toState
  | None => None
  end.

(** The object of [src/unnamed/part_000] that holds the same fields as an
    object of [src/src/index.ts]. *)
Definition to_driver (m : Query.FiniteStateMachine)
  : Driver.FiniteStateMachine :=
  {| Driver.states := Query.states m;
     Driver.alphabet := Query.alphabet m;
     Driver.initialState := Query.initialState m;
     Driver.currentState := Query.currentState m;
     Driver.acceptingStates := Query.acceptingStates m;
     Driver.transitionMap := Query.transitionFunction m;
     Driver.outputMap := Query.outputFunction m |}.



(* ================================================================= *)
(** * Properties *)

(** ** Strings *)

Lemma str_eqb_eq (a b : jsstring) : str_eqb a b = true <-> a = b.
Proof.
  unfold str_eqb. destruct (str_eq_dec a b); split; congruence.
Qed.

Lemma str_eqb_refl (a : jsstring) : str_eqb a a = true.
Proof. now apply str_eqb_eq. Qed.

Lemma str_eqb_neq (a b : jsstring) : str_eqb a b = false <-> a <> b.
Proof.
  unfold str_eqb. destruct (str_eq_dec a b); split; congruence.
Qed.

Lemma str_eqb_sym (a b : jsstring) : str_eqb a b = str_eqb b a.
Proof.
  unfold str_eqb.
  destruct (str_eq_dec a b), (str_eq_dec b a); congruence.
Qed.

Lemma split_nonempty (sep : N) (s : jsstring) : split sep s <> [].
Proof.
  destruct s as [|c rest]; simpl; [discriminate|].
  destruct (c =? sep)%N; [discriminate|].
  destruct (split sep rest); discriminate.
Qed.

(** A string without the separator is a single piece. *)
Lemma split_without (sep : N) (s : jsstring) :
  ~ In sep s -> split sep s = [s].
Proof.
  induction s as [|c rest IH]; simpl; intros Hn; [reflexivity|].
  destruct (N.eqb_spec c sep) as [->|_]; [exfalso; auto|].
  rewrite IH by tauto. reflexivity.
Qed.

(** Splitting [a ++ sep :: b] when [a] has no separator. *)
Lemma split_app_sep (sep : N) (a b : jsstring) :
  ~ In sep a -> split sep (a ++ sep :: b) = a :: split sep b.
Proof.
  induction a as [|c rest IH]; simpl; intros Hn.
  - now rewrite N.eqb_refl.
  - destruct (N.eqb_spec c sep) as [->|_]; [exfalso; auto|].
    rewrite IH by tauto. reflexivity.
Qed.

(** Every key the constructors write has at least two pieces. *)
Lemma split_key_of_length (a b : jsstring) :
  2 <= List.length (split comma (key_of a b)).
Proof.
  unfold key_of. induction a as [|c rest IH]; simpl.
  - pose proof (split_nonempty comma b).
    destruct (split comma b); [congruence | simpl; lia].
  - destruct (c =? comma)%N.
    + pose proof (split_nonempty comma (rest ++ comma :: b)).
      destruct (split comma (rest ++ comma :: b)); [congruence | simpl; lia].
    + destruct (split comma (rest ++ comma :: b)); simpl in *; lia.
Qed.

Lemma first_two_key_of (a b : jsstring) :
  ~ In comma a -> ~ In comma b ->
  first_two (split comma (key_of a b)) = (a, b).
Proof.
  intros Ha Hb. unfold key_of.
  rewrite split_app_sep by assumption.
  rewrite split_without by assumption. reflexivity.
Qed.

Lemma key_of_inj (a b a' b' : jsstring) :
  ~ In comma a -> ~ In comma a' ->
  key_of a b = key_of a' b' -> a = a' /\ b = b'.
Proof.
  unfold key_of. revert a'.
  induction a as [|c rest IH]; intros [|c' rest'] Ha Ha' H; simpl in *.
  - now inversion H.
  - inversion H; subst. exfalso; auto.
  - inversion H; subst. exfalso; auto.
  - inversion H; subst.
    destruct (IH rest') as [-> ->]; auto.
Qed.

(** ** Sets *)

Lemma has_In (x : jsstring) (s : JsSet.t) : JsSet.has x s = true <-> In x s.
Proof.
  unfold JsSet.has. rewrite existsb_exists. split.
  - intros (y & Hy & E). apply str_eqb_eq in E. now subst.
  - intros H. exists x. split; [assumption | apply str_eqb_refl].
Qed.

Lemma declared_In (x : jsstring) (l : list jsstring) :
  declared x l = true <-> In x l.
Proof. apply has_In. Qed.

Lemma In_add (x y : jsstring) (s : JsSet.t) :
  In y (JsSet.add x s) <-> y = x \/ In y s.
Proof.
  unfold JsSet.add. destruct (JsSet.has x s) eqn:E.
  - apply has_In in E. split; [tauto | intros [->|]; assumption].
  - rewrite in_app_iff. simpl. intuition congruence.
Qed.

Lemma NoDup_add (x : jsstring) (s : JsSet.t) :
  NoDup s -> NoDup (JsSet.add x s).
Proof.
  intros Hs. unfold JsSet.add. destruct (JsSet.has x s) eqn:E; [assumption|].
  assert (~ In x s) by (rewrite <- has_In; congruence).
  clear E. induction Hs as [|y l Hy Hl IH]; simpl.
  - constructor; [tauto | constructor].
  - constructor.
    + rewrite in_app_iff. simpl in *. intuition congruence.
    + apply IH. simpl in *. tauto.
Qed.

Lemma fold_add_spec (l : list jsstring) (s : JsSet.t) (y : jsstring) :
  In y (fold_left (fun s x => JsSet.add x s) l s) <-> In y l \/ In y s.
Proof.
  revert s. induction l as [|x l IH]; intros s; simpl; [tauto|].
  rewrite IH, In_add. intuition congruence.
Qed.

Lemma fold_add_NoDup (l : list jsstring) (s : JsSet.t) :
  NoDup s -> NoDup (fold_left (fun s x => JsSet.add x s) l s).
Proof.
  revert s. induction l as [|x l IH]; intros s Hs; simpl; [assumption|].
  apply IH, NoDup_add, Hs.
Qed.

Lemma In_of_array (l : list jsstring) (y : jsstring) :
  In y (JsSet.of_array l) <-> In y l.
Proof. unfold JsSet.of_array. rewrite fold_add_spec. simpl. tauto. Qed.

Lemma NoDup_of_array (l : list jsstring) : NoDup (JsSet.of_array l).
Proof. apply fold_add_NoDup. constructor. Qed.

Lemma has_of_array (l : list jsstring) (y : jsstring) :
  JsSet.has y (JsSet.of_array l) = declared y l.
Proof.
  apply eq_true_iff_eq. rewrite has_In, declared_In. apply In_of_array.
Qed.

Lemma fold_add_NoDup_id (l s : list jsstring) :
  NoDup (s ++ l) -> fold_left (fun s x => JsSet.add x s) l s = s ++ l.
Proof.
  revert s. induction l as [|x l IH]; intros s H; simpl.
  - now rewrite app_nil_r.
  - assert (E : JsSet.add x s = s ++ [x]).
    { unfold JsSet.add. destruct (JsSet.has x s) eqn:E; [|reflexivity].
      apply has_In in E. apply NoDup_remove_2 in H.
      exfalso. apply H. rewrite in_app_iff. now left. }
    rewrite E, IH; rewrite <- app_assoc; simpl; [reflexivity | assumption].
Qed.

(** Rebuilding a set from its own elements gives the same set, in the
    same order. *)
Lemma of_array_to_array (s : JsSet.t) :
  NoDup s -> JsSet.of_array (JsSet.to_array s) = s.
Proof.
  intros H. unfold JsSet.of_array, JsSet.to_array, JsSet.empty.
  now rewrite fold_add_NoDup_id.
Qed.

(** ** Maps *)

Section MapFacts.
Variable V : Type.
Implicit Types (m : JsMap.t V) (k : jsstring) (v : V).

Lemma get_set_same k v m : JsMap.get k (JsMap.set k v m) = Some v.
Proof.
  induction m as [|[k' v'] rest IH]; simpl.
  - now rewrite str_eqb_refl.
  - destruct (str_eqb k k') eqn:E; simpl; rewrite E; [reflexivity | exact IH].
Qed.

Lemma get_set_other k k' v m :
  k <> k' -> JsMap.get k' (JsMap.set k v m) = JsMap.get k' m.
Proof.
  intros Hne. induction m as [|[k0 v0] rest IH]; simpl.
  - assert (str_eqb k' k = false) as -> by (apply str_eqb_neq; congruence).
    reflexivity.
  - destruct (str_eqb k k0) eqn:E; simpl.
    + apply str_eqb_eq in E. subst k0.
      assert (str_eqb k' k = false) as -> by (apply str_eqb_neq; congruence).
      reflexivity.
    + now rewrite IH.
Qed.

Lemma In_set k v m k' v' :
  In (k', v') (JsMap.set k v m) -> (k' = k /\ v' = v) \/ In (k', v') m.
Proof.
  induction m as [|[k0 v0] rest IH]; simpl.
  - intros [H|[]]; inversion H; auto.
  - destruct (str_eqb k k0) eqn:E; simpl.
    + apply str_eqb_eq in E. subst k0.
      intros [H|H]; [inversion H; auto | auto].
    + intros [H|H]; [auto | destruct (IH H); auto].
Qed.

Lemma keys_set k v m :
  map fst (JsMap.set k v m) =
  match JsMap.get k m with
  | Some _ => map fst m
  | None => map fst m ++ [k]
  end.
Proof.
  induction m as [|[k0 v0] rest IH]; simpl; [reflexivity|].
  destruct (str_eqb k k0) eqn:E; simpl; [reflexivity|].
  rewrite IH. now destruct (JsMap.get k rest).
Qed.

Lemma get_None_keys k m : JsMap.get k m = None <-> ~ In k (map fst m).
Proof.
  induction m as [|[k0 v0] rest IH]; simpl; [tauto|].
  destruct (str_eqb k k0) eqn:E.
  - apply str_eqb_eq in E. subst. split; [discriminate | tauto].
  - apply str_eqb_neq in E. rewrite IH. intuition congruence.
Qed.

Lemma get_In k v m : JsMap.get k m = Some v -> In (k, v) m.
Proof.
  induction m as [|[k0 v0] rest IH]; simpl; [discriminate|].
  destruct (str_eqb k k0) eqn:E.
  - apply str_eqb_eq in E. subst. intros H. inversion H. now left.
  - auto.
Qed.

Lemma In_get k v m :
  NoDup (map fst m) -> In (k, v) m -> JsMap.get k m = Some v.
Proof.
  induction m as [|[k0 v0] rest IH]; simpl; [tauto|].
  intros Hnd [H|H].
  - inversion H; subst. now rewrite str_eqb_refl.
  - inversion Hnd as [|? ? Hk Hr]; subst.
    destruct (str_eqb k k0) eqn:E.
    + apply str_eqb_eq in E. subst k0.
      exfalso. apply Hk. now apply (in_map fst) in H.
    + auto.
Qed.

Lemma NoDup_keys_set k v m :
  NoDup (map fst m) -> NoDup (map fst (JsMap.set k v m)).
Proof.
  intros H. rewrite keys_set. destruct (JsMap.get k m) eqn:E; [assumption|].
  apply get_None_keys in E.
  apply NoDup_rev in H. rewrite <- (rev_involutive (_ ++ _)).
  apply NoDup_rev. rewrite rev_app_distr. simpl.
  constructor; [now rewrite <- in_rev | assumption].
Qed.

Lemma fold_set_NoDup (l : list (jsstring * V)) m :
  NoDup (map fst m) ->
  NoDup (map fst (fold_left (fun m kv => JsMap.set (fst kv) (snd kv) m) l m)).
Proof.
  revert m. induction l as [|[k v] l IH]; intros m H; simpl; [assumption|].
  apply IH, NoDup_keys_set, H.
Qed.

Lemma NoDup_keys_of_entries (l : list (jsstring * V)) :
  NoDup (map fst (JsMap.of_entries l)).
Proof. apply fold_set_NoDup. constructor. Qed.

Lemma find_app_first (A : Type) (p : A -> bool) (l1 l2 : list A) :
  find p (l1 ++ l2) =
  match find p l1 with Some y => Some y | None => find p l2 end.
Proof.
  induction l1 as [|x l1 IH]; simpl; [reflexivity|].
  now destruct (p x).
Qed.

Lemma get_fold_set (l : list (jsstring * V)) m k :
  JsMap.get k (fold_left (fun m kv => JsMap.set (fst kv) (snd kv) m) l m) =
  match assoc_last k l with
  | Some v => Some v
  | None => JsMap.get k m
  end.
Proof.
  revert m. induction l as [|[k0 v0] l IH]; intros m; simpl; [reflexivity|].
  rewrite IH. unfold assoc_last. simpl. rewrite find_app_first.
  destruct (find _ (rev l)) as [kv|]; [reflexivity|]. simpl.
  destruct (str_eqb k k0) eqn:E.
  - apply str_eqb_eq in E. subst. apply get_set_same.
  - apply str_eqb_neq in E. apply get_set_other. congruence.
Qed.

(** [new Map(entries)] keeps, for each key, the last entry given. *)
Lemma get_of_entries (l : list (jsstring * V)) k :
  JsMap.get k (JsMap.of_entries l) = assoc_last k l.
Proof.
  unfold JsMap.of_entries. rewrite get_fold_set.
  now destruct (assoc_last k l).
Qed.

Lemma set_fresh k v m :
  ~ In k (map fst m) -> JsMap.set k v m = m ++ [(k, v)].
Proof.
  induction m as [|[k0 v0] rest IH]; simpl; intros H; [reflexivity|].
  destruct (str_eqb k k0) eqn:E.
  - apply str_eqb_eq in E. subst. tauto.
  - rewrite IH by tauto. reflexivity.
Qed.

Lemma fold_set_NoDup_id (l : list (jsstring * V)) m :
  NoDup (map fst (m ++ l)) ->
  fold_left (fun m kv => JsMap.set (fst kv) (snd kv) m) l m = m ++ l.
Proof.
  revert m. induction l as [|[k v] l IH]; intros m H; simpl.
  - now rewrite app_nil_r.
  - rewrite set_fresh.
    + rewrite IH; rewrite <- app_assoc; simpl; [reflexivity | assumption].
    + rewrite map_app in H. simpl in H.
      apply NoDup_remove_2 in H. rewrite in_app_iff in H. tauto.
Qed.

(** Rebuilding a map from its own entries gives the same map, in the same
    order. *)
Lemma of_entries_entries m :
  NoDup (map fst m) -> JsMap.of_entries (JsMap.entries m) = m.
Proof.
  intros H. unfold JsMap.of_entries, JsMap.entries, JsMap.empty.
  now rewrite fold_set_NoDup_id.
Qed.

End MapFacts.

(** ** The monad *)

Lemma for_of_app {S A} (xs ys : list A) (body : A -> M S unit) (this : S) :
  for_of (xs ++ ys) body this =
  match for_of xs body this with
  | (Ok _, this') => for_of ys body this'
  | (Throw e, this') => (Throw e, this')
  end.
Proof.
  revert this. induction xs as [|x xs IH]; intros this; simpl.
  - reflexivity.
  - unfold bind. destruct (body x this) as [[[]|e] this']; [apply IH|].
    reflexivity.
Qed.

(** ** Construction *)

Lemma first_violation_ext {A} (f g : A -> option exn) (l : list A) :
  (forall x, f x = g x) -> first_violation f l = first_violation g l.
Proof.
  intros H. induction l as [|x l IH]; simpl; [reflexivity|].
  now rewrite H, IH.
Qed.

Lemma first_violation_None {A} (f : A -> option exn) (l : list A) :
  first_violation f l = None <-> forall x, In x l -> f x = None.
Proof.
  induction l as [|x l IH]; simpl; [tauto|].
  destruct (f x) eqn:E.
  - split; [discriminate|]. intros H. specialize (H x (or_introl eq_refl)).
    congruence.
  - rewrite IH. split.
    + intros H y [<-|Hy]; auto.
    + auto.
Qed.

Lemma state_violation_of_array (sts : list StateName) (s : StateName) :
  state_violation (JsSet.of_array sts) s = state_violation sts s.
Proof.
  unfold state_violation.
  change (declared s (JsSet.of_array sts))
    with (JsSet.has s (JsSet.of_array sts)).
  now rewrite has_of_array.
Qed.

Lemma transition_violation_of_array name sts alph tr :
  transition_violation name (JsSet.of_array sts) (JsSet.of_array alph) tr =
  transition_violation name sts alph tr.
Proof.
  destruct tr as [[f i] t]. unfold transition_violation.
  change (declared f (JsSet.of_array sts))
    with (JsSet.has f (JsSet.of_array sts)).
  change (declared t (JsSet.of_array sts))
    with (JsSet.has t (JsSet.of_array sts)).
  change (declared i (JsSet.of_array alph))
    with (JsSet.has i (JsSet.of_array alph)).
  now rewrite !has_of_array.
Qed.

Lemma fold_table (trs : list Transition) (m : JsMap.t StateName) :
  fold_left (fun m kv => JsMap.set (fst kv) (snd kv) m)
    (map (fun tr : Transition =>
            let '(fromState, input, toState) := tr in
            (key_of fromState input, toState)) trs) m =
  fold_left (fun m (tr : Transition) =>
               let '(fromState, input, toState) := tr in
               JsMap.set (key_of fromState input) toState m) trs m.
Proof.
  revert m. induction trs as [|[[f i] t] trs IH]; intros m; simpl.
  - reflexivity.
  - apply IH.
Qed.

Section QueryConstruction.
Import Query.

Lemma query_check_accepting_loop (l : list StateName) this :
  for_of l check_accepting this =
  match first_violation (state_violation (states this)) l with
  | Some e => (Throw e, this)
  | None => (Ok tt, this)
  end.
Proof.
  induction l as [|s l IH]; simpl; [reflexivity|].
  unfold bind at 1. unfold check_accepting at 1, bind, get_this.
  unfold state_violation at 1. unfold isValidState.
  change (declared s (states this)) with (JsSet.has s (states this)).
  destruct (JsSet.has s (states this)); simpl; [apply IH | reflexivity].
Qed.

Lemma query_check_output_loop (l : list Output) this :
  for_of l check_output this =
  match first_violation
          (fun o : Output => state_violation (states this) (fst o)) l with
  | Some e => (Throw e, this)
  | None => (Ok tt, this)
  end.
Proof.
  induction l as [|[s v] l IH]; simpl; [reflexivity|].
  unfold bind at 1. unfold check_output at 1, bind, get_this.
  unfold state_violation at 1. unfold isValidState.
  change (declared s (states this)) with (JsSet.has s (states this)).
  destruct (JsSet.has s (states this)); simpl; [apply IH | reflexivity].
Qed.

Lemma query_add_transition_step (tr : Transition) this :
  add_transition tr this =
  match transition_violation name_both (states this) (alphabet this) tr with
  | Some e => (Throw e, this)
  | None =>
      (Ok tt,
       set_transitionFunction
         (let '(fromState, input, toState) := tr in
          JsMap.set (key_of fromState input) toState (transitionFunction this))
         this)
  end.
Proof.
  destruct tr as [[f i] t].
  unfold add_transition, transition_violation, bind, get_this, throw,
    put_this, isValidState, isValidSymbol, name_both, declared, JsSet.has.
  destruct (negb (existsb (str_eqb f) (states this))
            || negb (existsb (str_eqb t) (states this))); [reflexivity|].
  destruct (negb (existsb (str_eqb i) (alphabet this))); reflexivity.
Qed.

Lemma query_add_transition_loop (trs : list Transition) this :
  match first_violation
          (transition_violation name_both (states this) (alphabet this)) trs
  with
  | Some e => fst (for_of trs add_transition this) = Throw e
  | None =>
      for_of trs add_transition this =
      (Ok tt,
       set_transitionFunction
         (fold_left (fun m (tr : Transition) =>
                       let '(fromState, input, toState) := tr in
                       JsMap.set (key_of fromState input) toState m)
            trs (transitionFunction this)) this)
  end.
Proof.
  revert this. induction trs as [|tr trs IH]; intros this; simpl.
  - now destruct this.
  - unfold bind. rewrite query_add_transition_step.
    destruct (transition_violation name_both (states this) (alphabet this) tr);
      [reflexivity|].
    specialize (IH (set_transitionFunction
         (let '(fromState, input, toState) := tr in
          JsMap.set (key_of fromState input) toState (transitionFunction this))
         this)).
    simpl in IH. destruct tr as [[f i] t]. exact IH.
Qed.

(** [new FiniteStateMachine(config)] of [src/src/index.ts] throws the
    first violation in the order initial state, accepting states,
    transitions, outputs, and otherwise returns [query_built config]. *)
Lemma query_constructor_spec (c : Config.FSMConfig) :
  constructor c =
  match query_violation c with
  | Some e => Throw e
  | None => Ok (query_built c)
  end.
Proof.
  unfold query_violation, check_a.
  rewrite <- (state_violation_of_array (Config.states c)).
  unfold constructor, constructor_body, state_violation.
  unfold bind at 1. unfold get_this at 1.
  unfold bind at 1. unfold isValidState at 1.
  change (initialState (fields c)) with (Config.initialState c).
  change (states (fields c)) with (JsSet.of_array (Config.states c)).
  change (declared (Config.initialState c) (JsSet.of_array (Config.states c)))
    with (JsSet.has (Config.initialState c) (JsSet.of_array (Config.states c))).
  destruct (JsSet.has (Config.initialState c)
              (JsSet.of_array (Config.states c)));
    simpl; [|reflexivity].
  unfold bind at 1. rewrite query_check_accepting_loop.
  change (states (fields c)) with (JsSet.of_array (Config.states c)).
  unfold check_b.
  rewrite (first_violation_ext _ _ _
             (state_violation_of_array (Config.states c))).
  destruct (first_violation _ (Config.acceptingStates c)); simpl;
    [reflexivity|].
  unfold bind at 1.
  pose proof (query_add_transition_loop (Config.transitions c) (fields c))
    as Ht.
  change (states (fields c)) with (JsSet.of_array (Config.states c)) in Ht.
  change (alphabet (fields c)) with (JsSet.of_array (Config.alphabet c)) in Ht.
  rewrite (first_violation_ext _ _ _
             (transition_violation_of_array name_both
                (Config.states c) (Config.alphabet c))) in Ht.
  unfold check_c.
  destruct (first_violation _ (Config.transitions c)); simpl.
  - destruct (for_of (Config.transitions c) add_transition (fields c))
      as [r th].
    simpl in Ht. now subst r.
  - rewrite Ht. rewrite query_check_output_loop. simpl.
    unfold check_d.
    rewrite (first_violation_ext
               (fun o : Output =>
                  state_violation (JsSet.of_array (Config.states c)) (fst o))
               (fun o : Output => state_violation (Config.states c) (fst o))
               (Config.outputs c)
               (fun o => state_violation_of_array (Config.states c) (fst o))).
    destruct (first_violation _ (Config.outputs c)); [reflexivity|].
    unfold query_built, table_of, JsMap.of_entries. now rewrite fold_table.
Qed.

End QueryConstruction.

Section DriverConstruction.
Import Driver.

Lemma driver_check_state_step (s : StateName) this :
  check_state s this =
  match state_violation (states this) s with
  | Some e => (Throw e, this)
  | None => (Ok tt, this)
  end.
Proof.
  unfold check_state, state_violation, bind, get_this, isValidState,
    declared, JsSet.has.
  now destruct (existsb (str_eqb s) (states this)).
Qed.

Lemma driver_check_state_loop (l : list StateName) this :
  for_of l check_state this =
  match first_violation (state_violation (states this)) l with
  | Some e => (Throw e, this)
  | None => (Ok tt, this)
  end.
Proof.
  induction l as [|s l IH]; simpl; [reflexivity|].
  unfold bind. rewrite driver_check_state_step.
  destruct (state_violation (states this) s); [reflexivity | apply IH].
Qed.

Lemma driver_check_output_loop (l : list Output) this :
  for_of l check_output this =
  match first_violation
          (fun o : Output => state_violation (states this) (fst o)) l with
  | Some e => (Throw e, this)
  | None => (Ok tt, this)
  end.
Proof.
  induction l as [|[s v] l IH]; simpl; [reflexivity|].
  unfold bind. rewrite driver_check_state_step.
  destruct (state_violation (states this) s); [reflexivity | apply IH].
Qed.

Lemma driver_add_transition_step (tr : Transition) this :
  add_transition tr this =
  match transition_violation name_source_first (states this) (alphabet this) tr
  with
  | Some e => (Throw e, this)
  | None =>
      (Ok tt,
       set_transitionMap
         (let '(fromState, input, toState) := tr in
          JsMap.set (key_of fromState input) toState (transitionMap this))
         this)
  end.
Proof.
  destruct tr as [[f i] t].
  unfold add_transition, transition_violation, bind, get_this, throw,
    put_this, isValidState, isValidSymbol, name_source_first, declared,
    JsSet.has.
  destruct (negb (existsb (str_eqb f) (states this))
            || negb (existsb (str_eqb t) (states this))); [reflexivity|].
  destruct (negb (existsb (str_eqb i) (alphabet this))); reflexivity.
Qed.

Lemma driver_add_transition_loop (trs : list Transition) this :
  match first_violation
          (transition_violation name_source_first (states this)
             (alphabet this)) trs
  with
  | Some e => fst (buildTransitionMap trs this) = Throw e
  | None =>
      buildTransitionMap trs this =
      (Ok tt,
       set_transitionMap
         (fold_left (fun m (tr : Transition) =>
                       let '(fromState, input, toState) := tr in
                       JsMap.set (key_of fromState input) toState m)
            trs (transitionMap this)) this)
  end.
Proof.
  unfold buildTransitionMap.
  revert this. induction trs as [|tr trs IH]; intros this; simpl.
  - now destruct this.
  - unfold bind. rewrite driver_add_transition_step.
    destruct (transition_violation name_source_first (states this)
                (alphabet this) tr); [reflexivity|].
    specialize (IH (set_transitionMap
         (let '(fromState, input, toState) := tr in
          JsMap.set (key_of fromState input) toState (transitionMap this))
         this)).
    simpl in IH. destruct tr as [[f i] t]. exact IH.
Qed.

(** [new FiniteStateMachine(config)] of [src/unnamed/part_000] throws the
    first violation in the order initial state, accepting states, outputs,
    transitions, and otherwise returns [driver_built config]. *)
Lemma driver_constructor_spec (c : Config.FSMConfig) :
  constructor c =
  match driver_violation c with
  | Some e => Throw e
  | None => Ok (driver_built c)
  end.
Proof.
  unfold driver_violation, check_a.
  rewrite <- (state_violation_of_array (Config.states c)).
  unfold constructor, validateStates.
  unfold bind at 1. unfold bind at 1. unfold get_this at 1.
  unfold bind at 1. rewrite driver_check_state_step.
  change (initialState (fields c)) with (Config.initialState c).
  change (states (fields c)) with (JsSet.of_array (Config.states c)).
  destruct (state_violation (JsSet.of_array (Config.states c))
              (Config.initialState c)); simpl; [reflexivity|].
  unfold bind at 1. rewrite driver_check_state_loop.
  change (states (fields c)) with (JsSet.of_array (Config.states c)).
  unfold check_b.
  rewrite (first_violation_ext _ _ _
             (state_violation_of_array (Config.states c))).
  destruct (first_violation _ (Config.acceptingStates c)); simpl;
    [reflexivity|].
  rewrite driver_check_output_loop.
  change (states (fields c)) with (JsSet.of_array (Config.states c)).
  unfold check_d.
  rewrite (first_violation_ext
             (fun o : Output =>
                state_violation (JsSet.of_array (Config.states c)) (fst o))
             (fun o : Output => state_violation (Config.states c) (fst o))
             (Config.outputs c)
             (fun o => state_violation_of_array (Config.states c) (fst o))).
  destruct (first_violation _ (Config.outputs c)); simpl; [reflexivity|].
  pose proof (driver_add_transition_loop (Config.transitions c) (fields c))
    as Ht.
  change (states (fields c)) with (JsSet.of_array (Config.states c)) in Ht.
  change (alphabet (fields c)) with (JsSet.of_array (Config.alphabet c)) in Ht.
  rewrite (first_violation_ext _ _ _
             (transition_violation_of_array name_source_first
                (Config.states c) (Config.alphabet c))) in Ht.
  unfold check_c.
  destruct (first_violation _ (Config.transitions c)); simpl.
  - destruct (buildTransitionMap (Config.transitions c) (fields c)) as [r th].
    simpl in Ht. now subst r.
  - rewrite Ht.
    unfold driver_built, table_of, JsMap.of_entries. now rewrite fold_table.
Qed.

End DriverConstruction.

(* ================================================================= *)
(** * Running a machine *)

Section QueryRuns.
Import Query.

Lemma query_set_currentState_same this :
  set_currentState (currentState this) this = this.
Proof. now destruct this. Qed.

Lemma query_transition_set_currentState q this s a :
  transition (set_currentState q this) s a = transition this s a.
Proof. reflexivity. Qed.

Lemma follows_set_currentState q this q0 symbols :
  follows (set_currentState q this) q0 symbols = follows this q0 symbols.
Proof.
  revert q0. induction symbols as [|a rest IH]; intros q0; simpl.
  - reflexivity.
  - rewrite query_transition_set_currentState.
    destruct (transition this q0 a) as [[q'|]|e]; auto.
Qed.

Lemma follows_app this q0 xs ys :
  follows this q0 (xs ++ ys) =
  match follows this q0 xs with
  | Some q => follows this q ys
  | None => None
  end.
Proof.
  revert q0. induction xs as [|a xs IH]; intros q0; simpl; [reflexivity|].
  destruct (transition this q0 a) as [[q'|]|e]; auto.
Qed.

(** A destination returned by the pure query is stored in the table. *)
Lemma query_transition_Some this s a q :
  transition this s a = Ok (Some q) ->
  isValidState this s = true /\ isValidSymbol this a = true /\
  JsMap.get (key_of s a) (transitionFunction this) = Some q /\ q <> [].
Proof.
  unfold transition.
  destruct (isValidState this s); simpl; [|discriminate].
  destruct (isValidSymbol this a); simpl; [|discriminate].
  destruct (JsMap.get (key_of s a) (transitionFunction this)) as [q'|];
    simpl; [|discriminate].
  destruct q' as [|c q']; simpl; [discriminate|].
  intros H. inversion H. repeat split; discriminate.
Qed.

Lemma follows_valid this q0 symbols q :
  query_valid this -> isValidState this q0 = true ->
  follows this q0 symbols = Some q -> isValidState this q = true.
Proof.
  intros (_ & _ & Htab). revert q0.
  induction symbols as [|a rest IH]; intros q0 Hq0; simpl.
  - congruence.
  - destruct (transition this q0 a) as [[q'|]|e] eqn:E; try discriminate.
    apply IH. apply query_transition_Some in E.
    destruct E as (_ & _ & E & _). apply get_In in E. eauto.
Qed.

Lemma query_valid_set_currentState q this :
  query_valid this -> isValidState this q = true ->
  query_valid (set_currentState q this).
Proof. intros (Hi & _ & Ht) Hq. unfold query_valid. simpl. auto. Qed.

Lemma query_process_symbol_step a this :
  process_symbol a this =
  if negb (isValidSymbol this a) then (Throw (InvalidSymbolError a), this)
  else match transition this (currentState this) a with
       | Ok (Some next) => (Ok tt, set_currentState next this)
       | Ok None =>
           (Throw (Error (no_transition_message (currentState this) a)), this)
       | Throw e => (Throw e, this)
       end.
Proof.
  unfold process_symbol, bind, get_this, lift, throw, put_this.
  destruct (negb (isValidSymbol this a)); [reflexivity|].
  destruct (transition this (currentState this) a) as [[next|]|e]; reflexivity.
Qed.

Lemma query_loop (symbols : list jsstring) this :
  match for_of symbols process_symbol this with
  | (Ok _, this') =>
      exists q, follows this (currentState this) symbols = Some q /\
                this' = set_currentState q this
  | (Throw e, this') =>
      exists pre a suf q,
        symbols = pre ++ a :: suf /\
        follows this (currentState this) pre = Some q /\
        this' = set_currentState q this /\
        query_step_fails this q a e
  end.
Proof.
  revert this. induction symbols as [|a rest IH]; intros this; simpl.
  - exists (currentState this). now rewrite query_set_currentState_same.
  - unfold bind. rewrite query_process_symbol_step.
    destruct (isValidSymbol this a) eqn:Ea; simpl.
    + destruct (transition this (currentState this) a) as [[next|]|e] eqn:Et.
      * specialize (IH (set_currentState next this)).
        destruct (for_of rest process_symbol (set_currentState next this))
          as [[[]|e] this'].
        -- destruct IH as (q & Hq & ->).
           rewrite follows_set_currentState in Hq. simpl in Hq. eauto.
        -- destruct IH as (pre & b & suf & q & -> & Hq & -> & Hf).
           rewrite follows_set_currentState in Hq. simpl in Hq.
           exists (a :: pre), b, suf, q. simpl. rewrite Et.
           repeat split; auto.
      * exists [], a, rest, (currentState this).
        rewrite query_set_currentState_same.
        repeat split. right. right. auto.
      * exists [], a, rest, (currentState this).
        rewrite query_set_currentState_same.
        repeat split. right. left.
        unfold transition in Et.
        destruct (isValidState this (currentState this)); simpl in Et.
        -- rewrite Ea in Et. discriminate.
        -- inversion Et. auto.
    + exists [], a, rest, (currentState this).
      rewrite query_set_currentState_same.
      repeat split. left. auto.
Qed.

(** [process] on a valid machine: it returns when every symbol has a
    transition, and the result describes the state reached. *)
Lemma query_process_returns input this q :
  query_valid this ->
  follows this (initialState this) (codePoints input) = Some q ->
  process input this =
  (Ok {| accepted := JsSet.has q (acceptingStates this);
         output := defined_or_null (get_value q (outputFunction this));
         finalState := q |},
   set_currentState q this).
Proof.
  intros Hv Hf.
  assert (Hq : isValidState this q = true).
  { eapply follows_valid; eauto. apply Hv. }
  unfold process. unfold bind at 1. unfold get_this at 1.
  unfold bind at 1. unfold put_this at 1. unfold bind at 1.
  pose proof (query_loop (codePoints input)
                (set_currentState (initialState this) this)) as Hl.
  revert Hl.
  destruct (for_of (codePoints input) process_symbol
              (set_currentState (initialState this) this)) as [[[]|e] this'];
    intros Hl.
  - destruct Hl as (q' & Hq' & ->).
    rewrite follows_set_currentState in Hq'. simpl in Hq'.
    assert (q' = q) by congruence. subst q'.
    unfold bind, get_this, lift, getOutput, isAcceptingState, ret.
    simpl. unfold isValidState in *. simpl. rewrite Hq. reflexivity.
  - destruct Hl as (pre & a & suf & q' & Hs & Hq' & -> & H).
    rewrite follows_set_currentState in Hq'. simpl in Hq'.
    rewrite Hs, follows_app, Hq' in Hf. simpl in Hf.
    exfalso.
    destruct (transition this q' a) as [[q''|]|e'] eqn:Et; try discriminate.
    destruct H as [[E _]|[(_ & E & _)|(_ & E & _)]].
    + apply query_transition_Some in Et. destruct Et as (Es & Ea & _).
      change (isValidSymbol this a = false) in E. congruence.
    + apply query_transition_Some in Et. destruct Et as (Es & Ea & _).
      change (isValidState this q' = false) in E. congruence.
    + change (transition this q' a = Ok None) in E. congruence.
Qed.

Lemma query_process_unfold input this :
  process input this =
  match for_of (codePoints input) process_symbol
          (set_currentState (initialState this) this) with
  | (Ok _, this1) =>
      match getOutput this1 (currentState this1) with
      | Ok output =>
          match isAcceptingState this1 (currentState this1) with
          | Ok accepted =>
              (Ok {| accepted := accepted;
                     output := defined_or_null output;
                     finalState := currentState this1 |}, this1)
          | Throw e => (Throw e, this1)
          end
      | Throw e => (Throw e, this1)
      end
  | (Throw e, this1) => (Throw e, this1)
  end.
Proof.
  unfold process, bind, get_this, put_this, lift, ret.
  destruct (for_of (codePoints input) process_symbol
              (set_currentState (initialState this) this)) as [[[]|e] this1];
    [|reflexivity].
  destruct (getOutput this1 (currentState this1)); [|reflexivity].
  destruct (isAcceptingState this1 (currentState this1)); reflexivity.
Qed.

(** [process] on a valid machine throws only inside its loop: at the
    first symbol that is undeclared or has no destination, with the
    machine left in the state reached by the symbols before it. *)
Lemma query_process_throws input this e this' :
  query_valid this ->
  process input this = (Throw e, this') ->
  exists pre a suf q,
    codePoints input = pre ++ a :: suf /\
    follows this (initialState this) pre = Some q /\
    this' = set_currentState q this /\
    ((isValidSymbol this a = false /\ e = InvalidSymbolError a) \/
     (isValidSymbol this a = true /\ transition this q a = Ok None /\
      e = Error (no_transition_message q a))).
Proof.
  intros Hv Hp.
  pose proof (query_loop (codePoints input)
                (set_currentState (initialState this) this)) as Hl.
  pose proof (query_process_unfold input this) as Hu.
  revert Hl Hu.
  destruct (for_of (codePoints input) process_symbol
              (set_currentState (initialState this) this)) as [[[]|e1] this1];
    intros Hl Hu.
  - destruct Hl as (q & Hq & ->).
    rewrite follows_set_currentState in Hq. simpl in Hq.
    rewrite (query_process_returns input Hv Hq) in Hp. discriminate.
  - rewrite Hu in Hp. inversion Hp; subst e1 this1. clear Hp Hu.
    destruct Hl as (pre & a & suf & q & Hs & Hq & -> & Hf).
    rewrite follows_set_currentState in Hq. simpl in Hq.
    exists pre, a, suf, q. repeat split; auto.
    destruct Hf as [Hf|[(_ & Hf & _)|Hf]]; auto.
    exfalso. change (isValidState this q = false) in Hf.
    assert (isValidState this q = true); [|congruence].
    eapply follows_valid; eauto. apply Hv.
Qed.

(** Whether [process] returns or throws, only the current state changes,
    and it is a declared state. *)
Lemma query_process_state input this :
  query_valid this ->
  exists q, isValidState this q = true /\
            snd (process input this) = set_currentState q this.
Proof.
  intros Hv.
  destruct (process input this) as [[r|e] this'] eqn:Hp.
  - destruct (follows this (initialState this) (codePoints input))
      as [q|] eqn:Hf.
    + rewrite (query_process_returns input Hv Hf) in Hp.
      inversion Hp. exists q. split; [|reflexivity].
      eapply follows_valid; eauto. apply Hv.
    + exfalso.
      pose proof (query_loop (codePoints input)
                    (set_currentState (initialState this) this)) as Hl.
      rewrite query_process_unfold in Hp. revert Hl Hp.
      destruct (for_of (codePoints input) process_symbol
                  (set_currentState (initialState this) this))
        as [[[]|e1] this1]; intros Hl Hp; [|discriminate].
      destruct Hl as (q & Hq & _).
      rewrite follows_set_currentState in Hq. simpl in Hq. congruence.
  - apply query_process_throws in Hp; [|assumption].
    destruct Hp as (pre & a & suf & q & _ & Hq & -> & _).
    exists q. split; [|reflexivity].
    eapply follows_valid; eauto. apply Hv.
Qed.

Lemma query_perform_state this (c : QueryCalls.call) :
  query_valid this ->
  exists q, isValidState this q = true /\
            QueryCalls.perform this c = set_currentState q this.
Proof.
  intros Hv. destruct c; simpl;
    try (exists (currentState this);
         rewrite query_set_currentState_same; split; [apply Hv | reflexivity]).
  now apply query_process_state.
Qed.

Lemma query_perform_all_state calls this :
  query_valid this ->
  exists q, isValidState this q = true /\
            QueryCalls.perform_all calls this = set_currentState q this.
Proof.
  revert this. induction calls as [|c calls IH]; intros this Hv; simpl.
  - exists (currentState this).
    rewrite query_set_currentState_same. split; [apply Hv | reflexivity].
  - destruct (query_perform_state c Hv) as (q & Hq & ->).
    assert (Hv' : query_valid (set_currentState q this))
      by (apply query_valid_set_currentState; assumption).
    destruct (IH _ Hv') as (q' & Hq' & ->).
    exists q'. split; [exact Hq' | reflexivity].
Qed.

End QueryRuns.

(** ** What a successful construction establishes *)

Lemma In_fold_set {V} (l : list (jsstring * V)) (m : JsMap.t V) k v :
  In (k, v) (fold_left (fun m kv => JsMap.set (fst kv) (snd kv) m) l m) ->
  In (k, v) l \/ In (k, v) m.
Proof.
  revert m. induction l as [|[k0 v0] l IH]; intros m; simpl; [auto|].
  intros H. apply IH in H. destruct H as [H|H]; [auto|].
  apply In_set in H. destruct H as [[-> ->]|H]; auto.
Qed.

Lemma In_of_entries {V} (l : list (jsstring * V)) k v :
  In (k, v) (JsMap.of_entries l) -> In (k, v) l.
Proof.
  intros H. apply In_fold_set in H. destruct H as [H|[]]. exact H.
Qed.

Lemma In_table_of (trs : list Transition) k v :
  In (k, v) (table_of trs) ->
  exists f i, In (f, i, v) trs /\ k = key_of f i.
Proof.
  intros H. apply In_of_entries in H. apply in_map_iff in H.
  destruct H as ([[f i] t] & E & H). inversion E; subst. eauto.
Qed.

Lemma transition_violation_None name sts alph f i t :
  transition_violation name sts alph (f, i, t) = None ->
  declared f sts = true /\ declared t sts = true /\ declared i alph = true.
Proof.
  unfold transition_violation.
  destruct (declared f sts), (declared t sts), (declared i alph);
    simpl; intros H; try discriminate; auto.
Qed.

Lemma or_else_None a b : or_else a b = None <-> a = None /\ b = None.
Proof.
  destruct a; simpl; split.
  - discriminate.
  - intros [H _]. discriminate H.
  - auto.
  - tauto.
Qed.

Lemma query_violation_None c :
  query_violation c = None ->
  declared (Config.initialState c) (Config.states c) = true /\
  (forall s, In s (Config.acceptingStates c) ->
             declared s (Config.states c) = true) /\
  (forall f i t, In (f, i, t) (Config.transitions c) ->
                 declared f (Config.states c) = true /\
                 declared t (Config.states c) = true /\
                 declared i (Config.alphabet c) = true) /\
  (forall s v, In (s, v) (Config.outputs c) ->
               declared s (Config.states c) = true).
Proof.
  unfold query_violation. rewrite !or_else_None.
  unfold check_a, check_b, check_c, check_d.
  rewrite !first_violation_None. unfold state_violation.
  intros (Ha & Hb & Hc & Hd). repeat split.
  - destruct (declared (Config.initialState c) (Config.states c)); congruence.
  - intros s Hs. specialize (Hb s Hs).
    destruct (declared s (Config.states c)); congruence.
  - apply (transition_violation_None _ _ _ _ _ _ (Hc _ H)).
  - apply (transition_violation_None _ _ _ _ _ _ (Hc _ H)).
  - apply (transition_violation_None _ _ _ _ _ _ (Hc _ H)).
  - intros s v Hs. specialize (Hd _ Hs). simpl in Hd.
    destruct (declared s (Config.states c)); congruence.
Qed.

Lemma query_constructor_Ok c m :
  Query.constructor c = Ok m -> query_violation c = None /\ m = query_built c.
Proof.
  rewrite query_constructor_spec.
  destruct (query_violation c); intros H; inversion H; auto.
Qed.

Lemma query_built_valid c :
  query_violation c = None -> query_valid (query_built c).
Proof.
  intros H. apply query_violation_None in H.
  destruct H as (Ha & _ & Hc & _).
  unfold query_valid, Query.isValidState. simpl.
  rewrite !has_of_array. repeat split; try assumption.
  intros k v Hin. apply In_table_of in Hin.
  destruct Hin as (f & i & Hin & _). rewrite has_of_array.
  apply (Hc _ _ _ Hin).
Qed.

Section DriverRuns.
Import Driver.

Lemma driver_set_currentState_same this :
  set_currentState (currentState this) this = this.
Proof. now destruct this. Qed.

Lemma driver_valid_set_currentState q this :
  driver_valid this -> isValidState this q = true ->
  driver_valid (set_currentState q this).
Proof. intros (Hi & _ & Ht) Hq. unfold driver_valid. simpl. auto. Qed.

(** The three outcomes of the stateful [transition]. *)
Lemma driver_transition_step a this :
  transition a this =
  if negb (isValidSymbol this a) then (Throw (InvalidSymbolError a), this)
  else match JsMap.get (key_of (currentState this) a) (transitionMap this) with
       | Some next =>
           if truthy_str next
           then (Ok (Some next), set_currentState next this)
           else (Ok None, this)
       | None => (Ok None, this)
       end.
Proof.
  unfold transition, bind, get_this, throw, put_this, ret, or_null.
  destruct (negb (isValidSymbol this a)); [reflexivity|].
  destruct (JsMap.get (key_of (currentState this) a) (transitionMap this))
    as [next|]; [|reflexivity].
  destruct (truthy_str next); reflexivity.
Qed.

Lemma driver_transition_state a this :
  driver_valid this ->
  exists q, isValidState this q = true /\
            snd (transition a this) = set_currentState q this.
Proof.
  intros Hv. rewrite driver_transition_step.
  assert (Hsame : exists q, isValidState this q = true /\
                            this = set_currentState q this).
  { exists (currentState this). rewrite driver_set_currentState_same.
    split; [apply Hv | reflexivity]. }
  destruct (negb (isValidSymbol this a)); [exact Hsame|].
  destruct (JsMap.get (key_of (currentState this) a) (transitionMap this))
    as [next|] eqn:E; [|exact Hsame].
  destruct (truthy_str next); [|exact Hsame].
  exists next. split; [|reflexivity].
  destruct Hv as (_ & _ & Ht). apply get_In in E. eauto.
Qed.

Lemma driver_process_symbol_step a this :
  process_symbol a this =
  match transition a this with
  | (Ok (Some _), this') => (Ok tt, this')
  | (Ok None, this') =>
      (Throw (Error (no_transition_message (currentState this') a)), this')
  | (Throw e, this') => (Throw e, this')
  end.
Proof.
  unfold process_symbol, bind.
  destruct (transition a this) as [[[next|]|e] this']; reflexivity.
Qed.

Lemma driver_process_symbol_state a this :
  driver_valid this ->
  exists q, isValidState this q = true /\
            snd (process_symbol a this) = set_currentState q this.
Proof.
  intros Hv. rewrite driver_process_symbol_step.
  destruct (driver_transition_state a Hv) as (q & Hq & E).
  exists q. split; [exact Hq|].
  destruct (transition a this) as [[[next|]|e] this']; exact E.
Qed.

Lemma driver_loop_state (symbols : list jsstring) this :
  driver_valid this ->
  exists q, isValidState this q = true /\
            snd (for_of symbols process_symbol this) = set_currentState q this.
Proof.
  revert this. induction symbols as [|a rest IH]; intros this Hv; simpl.
  - exists (currentState this). rewrite driver_set_currentState_same.
    split; [apply Hv | reflexivity].
  - unfold bind.
    destruct (driver_process_symbol_state a Hv) as (q & Hq & E).
    destruct (process_symbol a this) as [[[]|e] this1]; simpl in E; subst this1.
    + assert (Hv' : driver_valid (set_currentState q this))
        by (apply driver_valid_set_currentState; assumption).
      destruct (IH _ Hv') as (q' & Hq' & E'). exists q'. split; assumption.
    + exists q. split; [exact Hq | reflexivity].
Qed.

Lemma driver_follows_set_currentState q this q0 symbols :
  driver_follows (set_currentState q this) q0 symbols =
  driver_follows this q0 symbols.
Proof.
  revert q0. induction symbols as [|a rest IH]; intros q0; simpl.
  - reflexivity.
  - change (driver_next (set_currentState q this) q0 a)
      with (driver_next this q0 a).
    destruct (driver_next this q0 a); auto.
Qed.

Lemma driver_process_symbol_cases a this :
  process_symbol a this =
  if negb (isValidSymbol this a) then (Throw (InvalidSymbolError a), this)
  else match driver_next this (currentState this) a with
       | Some next => (Ok tt, set_currentState next this)
       | None =>
           (Throw (Error (no_transition_message (currentState this) a)), this)
       end.
Proof.
  rewrite driver_process_symbol_step, driver_transition_step.
  unfold driver_next, or_null.
  destruct (isValidSymbol this a); simpl; [|reflexivity].
  destruct (JsMap.get (key_of (currentState this) a) (transitionMap this))
    as [next|]; [|reflexivity].
  destruct (truthy_str next); reflexivity.
Qed.

Lemma driver_loop (symbols : list jsstring) this :
  match for_of symbols process_symbol this with
  | (Ok _, this') =>
      exists q, driver_follows this (currentState this) symbols = Some q /\
                this' = set_currentState q this
  | (Throw e, this') =>
      exists pre a suf q,
        symbols = pre ++ a :: suf /\
        driver_follows this (currentState this) pre = Some q /\
        this' = set_currentState q this /\
        ((isValidSymbol this a = false /\ e = InvalidSymbolError a) \/
         (isValidSymbol this a = true /\ driver_next this q a = None /\
          e = Error (no_transition_message q a)))
  end.
Proof.
  revert this. induction symbols as [|a rest IH]; intros this; simpl.
  - exists (currentState this). now rewrite driver_set_currentState_same.
  - unfold bind. rewrite driver_process_symbol_cases.
    destruct (isValidSymbol this a) eqn:Ea; simpl.
    + destruct (driver_next this (currentState this) a) as [next|] eqn:En.
      * specialize (IH (set_currentState next this)).
        destruct (for_of rest process_symbol (set_currentState next this))
          as [[[]|e] this'].
        -- destruct IH as (q & Hq & ->).
           rewrite driver_follows_set_currentState in Hq. simpl in Hq. eauto.
        -- destruct IH as (pre & b & suf & q & -> & Hq & -> & Hf).
           rewrite driver_follows_set_currentState in Hq. simpl in Hq.
           exists (a :: pre), b, suf, q. simpl. rewrite En.
           repeat split; auto.
      * exists [], a, rest, (currentState this).
        rewrite driver_set_currentState_same.
        repeat split. right. auto.
    + exists [], a, rest, (currentState this).
      rewrite driver_set_currentState_same.
      repeat split. left. auto.
Qed.

Lemma driver_reset_step this :
  reset this = (Ok tt, set_currentState (initialState this) this).
Proof. reflexivity. Qed.

Lemma driver_process_unfold input this :
  process input this =
  match for_of (codePoints input) process_symbol
          (set_currentState (initialState this) this) with
  | (Ok _, this1) =>
      (Ok {| accepted := isInAcceptingState this1;
             output := defined_or_null (getOutput this1);
             finalState := currentState this1 |}, this1)
  | (Throw e, this1) => (Throw e, this1)
  end.
Proof.
  unfold process, bind. rewrite driver_reset_step.
  destruct (for_of (codePoints input) process_symbol
              (set_currentState (initialState this) this)) as [[[]|e] this1];
    reflexivity.
Qed.

(** [process] of [src/unnamed/part_000] throws only inside its loop, at
    the first symbol that is undeclared or finds no destination, with the
    machine left in the state reached by the symbols before it. *)
Lemma driver_process_throws input this e this' :
  process input this = (Throw e, this') ->
  exists pre a suf q,
    codePoints input = pre ++ a :: suf /\
    driver_follows this (initialState this) pre = Some q /\
    this' = set_currentState q this /\
    ((isValidSymbol this a = false /\ e = InvalidSymbolError a) \/
     (isValidSymbol this a = true /\ driver_next this q a = None /\
      e = Error (no_transition_message q a))).
Proof.
  rewrite driver_process_unfold.
  pose proof (driver_loop (codePoints input)
                (set_currentState (initialState this) this)) as Hl.
  revert Hl.
  destruct (for_of (codePoints input) process_symbol
              (set_currentState (initialState this) this))
    as [[[]|e1] this1]; intros Hl Hp; [discriminate|].
  inversion Hp; subst e1 this1.
  destruct Hl as (pre & a & suf & q & Hs & Hq & -> & Hf).
  rewrite driver_follows_set_currentState in Hq. simpl in Hq.
  exists pre, a, suf, q. repeat split; auto.
Qed.

Lemma driver_process_state input this :
  driver_valid this ->
  exists q, isValidState this q = true /\
            snd (process input this) = set_currentState q this.
Proof.
  intros Hv. rewrite driver_process_unfold.
  assert (Hv' : driver_valid (set_currentState (initialState this) this))
    by (apply driver_valid_set_currentState; [assumption | apply Hv]).
  destruct (driver_loop_state (codePoints input) Hv') as (q & Hq & E).
  exists q. split; [exact Hq|].
  destruct (for_of (codePoints input) process_symbol
              (set_currentState (initialState this) this)) as [[[]|e] this1];
    exact E.
Qed.

Lemma driver_perform_state this (c : DriverCalls.call) :
  driver_valid this ->
  exists q, isValidState this q = true /\
            DriverCalls.perform this c = set_currentState q this.
Proof.
  intros Hv. destruct c; simpl;
    try (exists (currentState this);
         rewrite driver_set_currentState_same; split; [apply Hv | reflexivity]).
  - now apply driver_transition_state.
  - now apply driver_process_state.
  - exists (initialState this). split; [apply Hv | reflexivity].
Qed.

Lemma driver_perform_all_state calls this :
  driver_valid this ->
  exists q, isValidState this q = true /\
            DriverCalls.perform_all calls this = set_currentState q this.
Proof.
  revert this. induction calls as [|c calls IH]; intros this Hv; simpl.
  - exists (currentState this).
    rewrite driver_set_currentState_same. split; [apply Hv | reflexivity].
  - destruct (driver_perform_state c Hv) as (q & Hq & ->).
    assert (Hv' : driver_valid (set_currentState q this))
      by (apply driver_valid_set_currentState; assumption).
    destruct (IH _ Hv') as (q' & Hq' & ->).
    exists q'. split; [exact Hq' | reflexivity].
Qed.

End DriverRuns.

Lemma driver_violation_None c :
  driver_violation c = None -> query_violation c = None.
Proof.
  unfold driver_violation, query_violation. rewrite !or_else_None.
  intros (Ha & Hb & Hd & Hc). repeat split; try assumption.
  unfold check_c in *. rewrite first_violation_None in *.
  intros [[f i] t] Hin. specialize (Hc _ Hin).
  apply transition_violation_None in Hc. destruct Hc as (Hf & Ht & Hi).
  unfold transition_violation. now rewrite Hf, Ht, Hi.
Qed.

Lemma driver_constructor_Ok c m :
  Driver.constructor c = Ok m ->
  driver_violation c = None /\ m = driver_built c.
Proof.
  rewrite driver_constructor_spec.
  destruct (driver_violation c); intros H; inversion H; auto.
Qed.

Lemma driver_built_valid c :
  driver_violation c = None -> driver_valid (driver_built c).
Proof.
  intros H. apply driver_violation_None, query_violation_None in H.
  destruct H as (Ha & _ & Hc & _).
  unfold driver_valid, Driver.isValidState. simpl.
  rewrite !has_of_array. repeat split; try assumption.
  intros k v Hin. apply In_table_of in Hin.
  destruct Hin as (f & i & Hin & _). rewrite has_of_array.
  apply (Hc _ _ _ Hin).
Qed.

Lemma assoc_last_None {V} (k : jsstring) (l : list (jsstring * V)) :
  assoc_last k l = None <-> forall v, ~ In (k, v) l.
Proof.
  unfold assoc_last. split.
  - destruct (find _ (rev l)) as [kv|] eqn:E; [discriminate|].
    intros _ v Hin. apply in_rev in Hin.
    apply (find_none _ _ E) in Hin. simpl in Hin.
    rewrite str_eqb_refl in Hin. discriminate.
  - intros H. destruct (find _ (rev l)) as [[k' v]|] eqn:E; [|reflexivity].
    apply find_some in E. destruct E as [Hin E]. simpl in E.
    apply str_eqb_eq in E. subst k'. apply in_rev in Hin.
    exfalso. exact (H v Hin).
Qed.

Section QueryResults.
Import Query.

Lemma query_process_Ok input this r this' :
  query_valid this ->
  process input this = (Ok r, this') ->
  exists q, follows this (initialState this) (codePoints input) = Some q.
Proof.
  intros Hv Hp.
  pose proof (query_loop (codePoints input)
                (set_currentState (initialState this) this)) as Hl.
  rewrite query_process_unfold in Hp. revert Hl Hp.
  destruct (for_of (codePoints input) process_symbol
              (set_currentState (initialState this) this))
    as [[[]|e1] this1]; intros Hl Hp; [|discriminate].
  destruct Hl as (q & Hq & _).
  rewrite follows_set_currentState in Hq. simpl in Hq. eauto.
Qed.

(** On a valid machine a result of [process] reports the output stored
    for its final state. *)
Lemma query_process_output input this r this' :
  query_valid this ->
  process input this = (Ok r, this') ->
  output r = defined_or_null (get_value (finalState r) (outputFunction this)) /\
  accepted r = JsSet.has (finalState r) (acceptingStates this) /\
  this' = set_currentState (finalState r) this.
Proof.
  intros Hv Hp. destruct (query_process_Ok input Hv Hp) as (q & Hq).
  rewrite (query_process_returns input Hv Hq) in Hp.
  inversion Hp; subst. simpl. auto.
Qed.

(** Every machine obtained from a successful construction by any calls
    is the constructed object with some declared current state. *)
Lemma query_reachable c m calls :
  constructor c = Ok m ->
  m = query_built c /\ query_valid m /\
  exists q, isValidState m q = true /\
            QueryCalls.perform_all calls m = set_currentState q m.
Proof.
  intros H. apply query_constructor_Ok in H. destruct H as (Hn & ->).
  pose proof (query_built_valid c Hn) as Hv.
  split; [reflexivity|]. split; [exact Hv|].
  now apply query_perform_all_state.
Qed.

End QueryResults.

Lemma driver_reachable c d calls :
  Driver.constructor c = Ok d ->
  d = driver_built c /\ driver_valid d /\
  exists q, Driver.isValidState d q = true /\
            DriverCalls.perform_all calls d = Driver.set_currentState q d.
Proof.
  intros H. apply driver_constructor_Ok in H. destruct H as (Hn & ->).
  pose proof (driver_built_valid c Hn) as Hv.
  split; [reflexivity|]. split; [exact Hv|].
  now apply driver_perform_all_state.
Qed.

Lemma resets_S n this :
  resets (S n) this = Driver.set_currentState (Driver.initialState this) this.
Proof.
  revert this. induction n as [|n IH]; intros this; [reflexivity|].
  change (resets (S (S n)) this)
    with (resets (S n) (snd (Driver.reset this))).
  rewrite IH. reflexivity.
Qed.

(** ** The pure query, case by case *)

(** The state is checked first, then the symbol, then the table is read;
    a stored destination is returned unless it is the empty string. *)
Lemma query_transition_cases (this : Query.FiniteStateMachine)
  (s : StateName) (a : InputSymbol) :
  (Query.isValidState this s = false ->
   Query.transition this s a = Throw (InvalidStateError s)) /\
  (Query.isValidState this s = true ->
   Query.isValidSymbol this a = false ->
   Query.transition this s a = Throw (InvalidSymbolError a)) /\
  (Query.isValidState this s = true ->
   Query.isValidSymbol this a = true ->
   match JsMap.get (key_of s a) (Query.transitionFunction this) with
   | None => Query.transition this s a = Ok None
   | Some [] => Query.transition this s a = Ok None
   | Some (u :: q) => Query.transition this s a = Ok (Some (u :: q))
   end).
Proof.
  unfold Query.transition. repeat split.
  - intros ->. reflexivity.
  - intros -> ->. reflexivity.
  - intros -> ->. simpl.
    destruct (JsMap.get (key_of s a) (Query.transitionFunction this))
      as [[|u q]|]; reflexivity.
Qed.

(** ** Round trip without commas *)

Lemma map_ext_In_id {A} (f : A -> A) (l : list A) :
  (forall x, In x l -> f x = x) -> map f l = l.
Proof.
  intros H. induction l as [|x l IH]; simpl; [reflexivity|].
  rewrite H by (now left). rewrite IH; [reflexivity|].
  intros y Hy. apply H. now right.
Qed.

Section RoundTrip.
Variable c : Config.FSMConfig.
Hypothesis no_violation : query_violation c = None.
Hypothesis no_comma :
  forall f i t, In (f, i, t) (Config.transitions c) ->
                ~ In comma f /\ ~ In comma i.

(** Each entry of the table comes from a transition, and its key splits
    back into the source and the symbol of that transition. *)
Lemma exported_transition k v :
  In (k, v) (table_of (Config.transitions c)) ->
  exists f i, In (f, i, v) (Config.transitions c) /\ k = key_of f i /\
              first_two (split comma k) = (f, i).
Proof.
  intros H. apply In_table_of in H. destruct H as (f & i & Hin & ->).
  exists f, i. split; [exact Hin|]. split; [reflexivity|].
  destruct (no_comma _ _ _ Hin). now apply first_two_key_of.
Qed.

Lemma exported_table :
  table_of (Config.transitions (Query.getStructure (query_built c))) =
  table_of (Config.transitions c).
Proof.
  unfold Query.getStructure, query_built. simpl.
  unfold table_of at 1. rewrite map_map.
  rewrite map_ext_In_id.
  - apply of_entries_entries. apply NoDup_keys_of_entries.
  - intros [k v] Hin. apply exported_transition in Hin.
    destruct Hin as (f & i & _ & -> & Es).
    unfold first_two in Es. injection Es as E0 E1.
    cbv beta iota. now rewrite E0, E1.
Qed.

Lemma exported_no_violation :
  query_violation (Query.getStructure (query_built c)) = None.
Proof.
  pose proof (query_violation_None c no_violation) as (Ha & Hb & Hc & Hd).
  unfold query_violation. rewrite !or_else_None.
  unfold check_a, check_b, check_c, check_d, Query.getStructure, query_built.
  simpl. unfold JsSet.to_array, JsMap.entries.
  rewrite !first_violation_None.
  repeat split.
  - rewrite state_violation_of_array. unfold state_violation. now rewrite Ha.
  - intros s Hs. apply (proj1 (In_of_array _ _)) in Hs.
    rewrite state_violation_of_array. unfold state_violation.
    now rewrite (Hb s Hs).
  - intros [[f i] t] Hin. apply in_map_iff in Hin.
    destruct Hin as ([k v] & E & Hin).
    apply exported_transition in Hin.
    destruct Hin as (f' & i' & Hin & _ & Es).
    unfold first_two in Es. injection Es as E0 E1.
    cbv beta iota in E. unfold first_two in E. rewrite E0, E1 in E.
    injection E as <- <- <-. clear E0 E1.
    rewrite transition_violation_of_array.
    destruct (Hc _ _ _ Hin) as (Hf & Ht & Hi).
    unfold transition_violation. now rewrite Hf, Ht, Hi.
  - intros [s v] Hin. apply In_of_entries in Hin. simpl.
    rewrite state_violation_of_array. unfold state_violation.
    now rewrite (Hd s v Hin).
Qed.

Lemma exported_built :
  query_built (Query.getStructure (query_built c)) = query_built c.
Proof.
  unfold query_built at 1. rewrite exported_table.
  unfold query_built, Query.set_transitionFunction, Query.fields,
    Query.getStructure. simpl.
  rewrite !of_array_to_array by apply NoDup_of_array.
  rewrite of_entries_entries by apply NoDup_keys_of_entries.
  reflexivity.
Qed.

End RoundTrip.

(** When no source state and no symbol of a transition contains a comma,
    constructing from the exported structure returns the very object that
    was exported: same sets and same tables, in the same order. *)
Lemma query_round_trip_without_comma (c : Config.FSMConfig)
  (m : Query.FiniteStateMachine) :
  Query.constructor c = Ok m ->
  (forall f i t, In (f, i, t) (Config.transitions c) ->
                 ~ In comma f /\ ~ In comma i) ->
  Query.constructor (Query.getStructure m) = Ok m.
Proof.
  intros Hm Hc. apply query_constructor_Ok in Hm. destruct Hm as (Hn & ->).
  rewrite query_constructor_spec.
  rewrite (@exported_no_violation c Hn Hc), (@exported_built c Hc).
  reflexivity.
Qed.

(* ================================================================= *)
(** * The claims *)

(** ** C1: the traffic light fed ["NextNextNext"] *)

(** C1. On the traffic-light machine the specification expects
    [process("NextNextNext")] to return
    [{accepted: true, output: "Stop", finalState: "Red"}].  The source
    iterates the input string character by character, so the first symbol
    looked up is ["N"], which is not in the alphabet [{"Next"}]: both
    versions throw [InvalidSymbolError("N")] and leave the machine in
    [Red], whereas three calls of the stateful [transition("Next")] do
    reach [Red] with output ["Stop"]. *)
Theorem C1_traffic_light_process_throws :
  exists m d,
    Query.constructor trafficLight = Ok m /\
    Driver.constructor trafficLight = Ok d /\
    codePoints (js "NextNextNext") =
      map js ["N"; "e"; "x"; "t"; "N"; "e"; "x"; "t";
              "N"; "e"; "x"; "t"]%string /\
    Query.isValidSymbol m (js "N") = false /\
    Query.process (js "NextNextNext") m =
      (Throw (InvalidSymbolError (js "N")), m) /\
    Driver.process (js "NextNextNext") d =
      (Throw (InvalidSymbolError (js "N")), d) /\
    (let d3 := DriverCalls.perform_all
                 [DriverCalls.Transition (js "Next");
                  DriverCalls.Transition (js "Next");
                  DriverCalls.Transition (js "Next")] d in
     Driver.getProcessResult d3 =
       (Ok {| accepted := true;
              output := VStr (js "Stop");
              finalState := js "Red" |}, d3)).
Proof.
  eexists. eexists.
  split; [vm_compute; reflexivity|].
  split; [vm_compute; reflexivity|].
  repeat split; vm_compute; reflexivity.
Qed.

(** ** C2: exporting the structure and constructing again *)

(** C2. With a comma in a state name the round trip breaks: the machine
    built from [commaNamed] stores its transition under the key [a,b,c],
    [getStructure] splits that key into source [a] and symbol [b], and
    constructing a machine from the exported configuration throws
    [InvalidStateError], in both versions of the source. *)
Theorem C2_round_trip_fails_with_comma :
  exists m d,
    Query.constructor commaNamed = Ok m /\
    Driver.constructor commaNamed = Ok d /\
    Config.transitions (Query.getStructure m) = [(js "a", js "b", js "q")] /\
    Config.transitions (Driver.getStructure d) = [(js "a", js "b", js "q")] /\
    Query.constructor (Query.getStructure m) =
      Throw (InvalidStateError (js "a or q")) /\
    Driver.constructor (Driver.getStructure d) =
      Throw (InvalidStateError (js "a")).
Proof.
  eexists. eexists.
  split; [vm_compute; reflexivity|].
  split; [vm_compute; reflexivity|].
  repeat split; vm_compute; reflexivity.
Qed.

(** ** C3: the pure transition query *)

(** C3. The query returns the destination only when it is a truthy
    string.  In [emptyNamed] the empty string is a declared state and the
    table maps [("A", "x")] to it, yet [transition("A", "x")] returns
    [null], the value documented for a pair without transition. *)
Theorem C3_transition_to_empty_name_is_null :
  exists m,
    Query.constructor emptyNamed = Ok m /\
    Query.isValidState m (js "A") = true /\
    Query.isValidState m (emptyString) = true /\
    Query.isValidSymbol m (js "x") = true /\
    JsMap.get (key_of (js "A") (js "x")) (Query.transitionFunction m) =
      Some (emptyString) /\
    Query.transition m (js "A") (js "x") = Ok None.
Proof.
  eexists. split; [vm_compute; reflexivity|].
  repeat split; vm_compute; reflexivity.
Qed.

(** ** C4: the order of validation *)

(** C4, as stated, fails.  In [src/src/index.ts] an undeclared source
    state is reported as the text ["S or A"], which is neither endpoint;
    in [src/unnamed/part_000] the outputs are validated before the
    transitions, so an undeclared output state is reported although a
    transition with an undeclared symbol comes first in the specified
    order. *)
Lemma C4_specified_order_counterexample :
  ~ (exists b, thrown (Query.constructor badSource)
               = specified_violation b badSource) /\
  ~ (exists b, thrown (Driver.constructor badSymbolAndOutput)
               = specified_violation b badSymbolAndOutput).
Proof.
  split; intros [[|] H]; vm_compute in H; discriminate H.
Qed.

(** C4, amended.  Construction throws the first violation found, and
    succeeds when there is none.  [src/src/index.ts] validates the initial
    state, the accepting states, the transitions and then the outputs, and
    reports an undeclared transition endpoint as [InvalidState] carrying
    the text [<source> or <destination>].  [src/unnamed/part_000]
    validates the initial state, the accepting states, the outputs and
    then the transitions, and reports the source when it is undeclared and
    the destination otherwise.  In both, the endpoints of a transition are
    checked before its symbol, and every other violation is an
    [InvalidState] carrying the offending state. *)
Theorem C4_validation_order (c : Config.FSMConfig) :
  thrown (Query.constructor c) = query_violation c /\
  thrown (Driver.constructor c) = driver_violation c.
Proof.
  rewrite query_constructor_spec, driver_constructor_spec.
  destruct (query_violation c), (driver_violation c); auto.
Qed.

(** ** C5: the stateful transition *)

(** C5. Same defect as C3 in the stateful version: the table of
    [emptyNamed] maps [("A", "x")] to the declared state named by the
    empty string, yet [transition("x")] called in [A] leaves the current
    state at [A] and returns [null]. *)
Theorem C5_advance_to_empty_name_stays :
  exists d,
    Driver.constructor emptyNamed = Ok d /\
    Driver.getCurrentState d = js "A" /\
    Driver.isValidState d (emptyString) = true /\
    Driver.isValidSymbol d (js "x") = true /\
    JsMap.get (key_of (js "A") (js "x")) (Driver.transitionMap d) =
      Some (emptyString) /\
    Driver.transition (js "x") d = (Ok None, d).
Proof.
  eexists. split; [vm_compute; reflexivity|].
  repeat split; vm_compute; reflexivity.
Qed.

(** ** C6: reset and the empty input *)

(** [defined_or_null x] written out, case by case on [x]. *)
Ltac by_cases_on_output :=
  match goal with
  | |- defined_or_null ?x = _ => destruct x; reflexivity
  end.

(** C6, as stated, fails on the output of the triple.  On a machine whose
    initial state has no output, [process] of the empty string returns
    [null] as output while [getOutput], called after a [reset()] in
    [src/unnamed/part_000] or on the initial state in [src/src/index.ts],
    returns [undefined]: the two triples differ. *)
Lemma C6_same_triple_counterexample :
  Driver.constructor (oneState None) = Ok (driver_built (oneState None)) /\
  Query.constructor (oneState None) = Ok (query_built (oneState None)) /\
  (exists r,
     fst (Driver.process [] (driver_built (oneState None))) = Ok r /\
     (accepted r, output r, finalState r) <>
     (Driver.isInAcceptingState
        (snd (Driver.reset (driver_built (oneState None)))),
      Driver.getOutput (snd (Driver.reset (driver_built (oneState None)))),
      Driver.getCurrentState
        (snd (Driver.reset (driver_built (oneState None)))))) /\
  (exists r,
     fst (Query.process [] (query_built (oneState None))) = Ok r /\
     Ok (output r) <> Query.getOutput (query_built (oneState None)) (js "S")).
Proof.
  split; [vm_compute; reflexivity|].
  split; [vm_compute; reflexivity|].
  split; eexists; (split; [vm_compute; reflexivity|]);
    vm_compute; discriminate.
Qed.

(** C6, amended.  In [src/unnamed/part_000], one or more calls of
    [reset()] in a row leave the current state equal to the initial state,
    and so does any number of them, zero included, on a freshly
    constructed machine.  [process] of the empty string returns; in its
    result [accepted] and [finalState] are what a [reset()] followed by
    the acceptance and current-state queries reports, and [output] is what
    the output query then reports, except that it is [null] where the
    query reports [undefined].  The same holds in [src/src/index.ts],
    where the queries take the state and the reset is the first statement
    of [process]. *)
Theorem C6_reset_and_empty_input
  (c : Config.FSMConfig)
  (m : Query.FiniteStateMachine) (calls : list QueryCalls.call)
  (d this : Driver.FiniteStateMachine) (n : nat) :
  Query.constructor c = Ok m ->
  Driver.constructor c = Ok d ->
  Driver.getCurrentState (resets (S n) this) = Driver.initialState this /\
  Driver.getCurrentState (resets n d) = Driver.initialState d /\
  (exists r,
     Driver.process [] this = (Ok r, snd (Driver.reset this)) /\
     accepted r = Driver.isInAcceptingState (snd (Driver.reset this)) /\
     finalState r = Driver.getCurrentState (snd (Driver.reset this)) /\
     output r = match Driver.getOutput (snd (Driver.reset this)) with
                | VUndefined => VNull
                | v => v
                end) /\
  (exists r o,
     Query.process [] (QueryCalls.perform_all calls m) =
       (Ok r, Query.set_currentState (Query.initialState m)
                (QueryCalls.perform_all calls m)) /\
     Query.isAcceptingState (QueryCalls.perform_all calls m)
       (Query.initialState m) = Ok (accepted r) /\
     finalState r = Query.initialState m /\
     Query.getOutput (QueryCalls.perform_all calls m)
       (Query.initialState m) = Ok o /\
     output r = match o with VUndefined => VNull | v => v end).
Proof.
  intros Hm Hd.
  split; [now rewrite resets_S|].
  split.
  { destruct n as [|n]; [|now rewrite resets_S].
    apply driver_constructor_Ok in Hd. destruct Hd as (_ & ->). reflexivity. }
  split.
  { eexists. split; [reflexivity|]. simpl.
    repeat split. by_cases_on_output. }
  destruct (@query_reachable c m calls Hm) as (_ & Hv & q & Hq & ->).
  assert (Hv' : query_valid (Query.set_currentState q m))
    by (apply query_valid_set_currentState; assumption).
  assert (Hf : follows (Query.set_currentState q m)
                 (Query.initialState (Query.set_currentState q m))
                 (codePoints []) = Some (Query.initialState m))
    by reflexivity.
  rewrite (@query_process_returns [] _ _ Hv' Hf).
  eexists. eexists. split; [reflexivity|]. simpl.
  destruct Hv as (Hi & _).
  unfold Query.isAcceptingState, Query.getOutput, Query.isValidState in *.
  simpl. rewrite Hi. simpl.
  repeat split. by_cases_on_output.
Qed.

(** An instance of C6 on the machine of the test suite, moved to [C]. *)
Lemma C6_reset_and_empty_input_witness :
  Query.constructor abcMachine = Ok (query_built abcMachine) /\
  Driver.constructor abcMachine = Ok (driver_built abcMachine) /\
  Driver.getCurrentState
    (resets 3 (Driver.set_currentState (js "C") (driver_built abcMachine)))
  = js "A" /\
  exists r,
    Driver.process []
      (Driver.set_currentState (js "C") (driver_built abcMachine)) =
    (Ok r, driver_built abcMachine) /\
    accepted r = false /\ finalState r = js "A" /\
    output r = VStr (js "Output A").
Proof.
  assert (Hq : Query.constructor abcMachine = Ok (query_built abcMachine))
    by (vm_compute; reflexivity).
  assert (Hd : Driver.constructor abcMachine = Ok (driver_built abcMachine))
    by (vm_compute; reflexivity).
  destruct (@C6_reset_and_empty_input abcMachine (query_built abcMachine)
              [QueryCalls.Process (js "00")]
              (driver_built abcMachine)
              (Driver.set_currentState (js "C") (driver_built abcMachine))
              2 Hq Hd) as (H1 & _ & (r & H3 & H4 & H5 & H6) & _).
  split; [exact Hq|]. split; [exact Hd|].
  split; [exact H1|].
  exists r. split; [exact H3|]. split; [exact H4|].
  split; [exact H5 | exact H6].
Defined.

(** ** C7: absence of an output and falsy outputs *)

(** C7, as stated, fails for the falsy values [null] and [undefined],
    which the unconstrained output type permits.  An output configured as
    [null] is reported by [process] as [null], exactly what it reports
    for a state without output; an output configured as [undefined] is
    reported by [getOutput] as [undefined], exactly what it reports for a
    state without output. *)
Lemma C7_falsy_marker_counterexample :
  falsy VNull = true /\ falsy VUndefined = true /\
  Query.constructor (oneState (Some VNull))
  = Ok (query_built (oneState (Some VNull))) /\
  Query.constructor (oneState (Some VUndefined))
  = Ok (query_built (oneState (Some VUndefined))) /\
  Query.constructor (oneState None) = Ok (query_built (oneState None)) /\
  assoc_last (js "S") (Config.outputs (oneState (Some VNull)))
  = Some VNull /\
  assoc_last (js "S") (Config.outputs (oneState None)) = None /\
  (exists r r',
     fst (Query.process [] (query_built (oneState (Some VNull)))) = Ok r /\
     fst (Query.process [] (query_built (oneState None))) = Ok r' /\
     finalState r = js "S" /\ finalState r' = js "S" /\
     output r = output r') /\
  Query.getOutput (query_built (oneState (Some VUndefined))) (js "S")
  = Query.getOutput (query_built (oneState None)) (js "S").
Proof.
  repeat (split; [vm_compute; reflexivity|]).
  split; [|vm_compute; reflexivity].
  eexists. eexists.
  repeat (split; [vm_compute; reflexivity|]).
  vm_compute. reflexivity.
Qed.

(** C7, amended.  On a machine of [src/src/index.ts], for a declared state
    without output entry the query [getOutput] returns [undefined] and
    every result of [process] that ends in this state has output [null];
    for a declared state whose configured output (the last entry given for
    it) is any value other than [undefined] and [null], in particular the
    empty string, zero or [false], both report that value, which differs
    from the absence marker of each. *)
Theorem C7_output_absent_or_configured
  (c : Config.FSMConfig) (m : Query.FiniteStateMachine)
  (calls : list QueryCalls.call) (s : StateName) :
  Query.constructor c = Ok m ->
  Query.isValidState m s = true ->
  ((forall v, ~ In (s, v) (Config.outputs c)) ->
   Query.getOutput (QueryCalls.perform_all calls m) s = Ok VUndefined /\
   forall input r this',
     Query.process input (QueryCalls.perform_all calls m) = (Ok r, this') ->
     finalState r = s -> output r = VNull) /\
  (forall v,
     assoc_last s (Config.outputs c) = Some v ->
     v <> VUndefined -> v <> VNull ->
     Query.getOutput (QueryCalls.perform_all calls m) s = Ok v /\
     forall input r this',
       Query.process input (QueryCalls.perform_all calls m) = (Ok r, this') ->
       finalState r = s -> output r = v /\ output r <> VNull).
Proof.
  intros Hm Hs.
  destruct (@query_reachable c m calls Hm) as (Eb & Hv & q & Hq & ->).
  assert (Hv' : query_valid (Query.set_currentState q m))
    by (apply query_valid_set_currentState; assumption).
  assert (Eo : forall k, get_value k
                 (Query.outputFunction (Query.set_currentState q m)) =
               match assoc_last k (Config.outputs c) with
               | Some v => v
               | None => VUndefined
               end).
  { intros k. subst m. unfold get_value. simpl. now rewrite get_of_entries. }
  split.
  - intros Hno. apply assoc_last_None in Hno.
    split.
    + unfold Query.getOutput, Query.isValidState in *. simpl. rewrite Hs.
      simpl. f_equal. specialize (Eo s). simpl in Eo. rewrite Eo, Hno.
      reflexivity.
    + intros input r this' Hp <-.
      destruct (@query_process_output input _ r this' Hv' Hp) as (-> & _).
      rewrite Eo, Hno. reflexivity.
  - intros v Hv1 Hu Hn. split.
    + unfold Query.getOutput, Query.isValidState in *. simpl. rewrite Hs.
      simpl. f_equal. specialize (Eo s). simpl in Eo. rewrite Eo, Hv1.
      reflexivity.
    + intros input r this' Hp <-.
      destruct (@query_process_output input _ r this' Hv' Hp) as (-> & _).
      rewrite Eo, Hv1. unfold defined_or_null.
      destruct v; simpl; split; congruence.
Qed.

(** An instance of C7: state [N] has no output, state [Z] has output
    zero. *)
Lemma C7_output_absent_or_configured_witness :
  Query.constructor falsyOutputs = Ok (query_built falsyOutputs) /\
  falsy (VNum 0) = true /\
  Query.getOutput (query_built falsyOutputs) (js "N") = Ok VUndefined /\
  Query.getOutput (query_built falsyOutputs) (js "Z") = Ok (VNum 0) /\
  (exists r this',
     Query.process (js "n") (query_built falsyOutputs) = (Ok r, this') /\
     finalState r = js "N" /\ output r = VNull) /\
  (exists r this',
     Query.process (js "z") (query_built falsyOutputs) = (Ok r, this') /\
     finalState r = js "Z" /\ output r = VNum 0).
Proof.
  assert (Hq : Query.constructor falsyOutputs = Ok (query_built falsyOutputs))
    by (vm_compute; reflexivity).
  assert (HN : Query.isValidState (query_built falsyOutputs) (js "N") = true)
    by (vm_compute; reflexivity).
  assert (HZ : Query.isValidState (query_built falsyOutputs) (js "Z") = true)
    by (vm_compute; reflexivity).
  destruct (@C7_output_absent_or_configured falsyOutputs
              (query_built falsyOutputs) [] (js "N") Hq HN) as (Habs & _).
  destruct (@C7_output_absent_or_configured falsyOutputs
              (query_built falsyOutputs) [] (js "Z") Hq HZ) as (_ & Hcfg).
  assert (Hno : forall v, ~ In (js "N", v) (Config.outputs falsyOutputs)).
  { intros v [H|[H|[H|[]]]]; vm_compute in H; discriminate H. }
  destruct (Habs Hno) as (Hg & Hp).
  assert (Hlast : assoc_last (js "Z") (Config.outputs falsyOutputs)
                  = Some (VNum 0)) by (vm_compute; reflexivity).
  destruct (Hcfg (VNum 0) Hlast) as (Hg' & Hp'); try discriminate.
  split; [exact Hq|]. split; [reflexivity|].
  split; [exact Hg|]. split; [exact Hg'|].
  split.
  - eexists. eexists. split; [vm_compute; reflexivity|].
    split; [reflexivity|].
    refine (Hp (js "n") _ _ _ _); vm_compute; reflexivity.
  - eexists. eexists. split; [vm_compute; reflexivity|].
    split; [reflexivity|].
    refine (proj1 (Hp' (js "z") _ _ _ _)); vm_compute; reflexivity.
Defined.

(** The two absence markers themselves are the values left out above: an
    output configured as [null] reads, in the result of [process], like no
    output at all. *)
Remark null_output_reads_as_absent :
  fst (Query.process [] (query_built (oneState (Some VNull)))) =
  fst (Query.process [] (query_built (oneState None))).
Proof. vm_compute. reflexivity. Qed.

(** ** C8: the current state is a declared state *)

(** C8. After a successful construction and any sequence of public calls,
    returning or throwing, the machine has the fields it was built with
    and a current state that belongs to the declared states, in both
    versions of the source. *)
Theorem C8_current_state_declared
  (c : Config.FSMConfig)
  (m : Query.FiniteStateMachine) (qcalls : list QueryCalls.call)
  (d : Driver.FiniteStateMachine) (dcalls : list DriverCalls.call) :
  Query.constructor c = Ok m ->
  Driver.constructor c = Ok d ->
  (In (Query.getCurrentState (QueryCalls.perform_all qcalls m))
      (Config.states c) /\
   Query.isValidState (QueryCalls.perform_all qcalls m)
     (Query.getCurrentState (QueryCalls.perform_all qcalls m)) = true /\
   Query.getCurrentState m = Config.initialState c) /\
  (In (Driver.getCurrentState (DriverCalls.perform_all dcalls d))
      (Config.states c) /\
   Driver.isValidState (DriverCalls.perform_all dcalls d)
     (Driver.getCurrentState (DriverCalls.perform_all dcalls d)) = true /\
   Driver.getCurrentState d = Config.initialState c).
Proof.
  intros Hm Hd. split.
  - destruct (@query_reachable c m qcalls Hm) as (Eb & Hv & q & Hq & ->).
    subst m. split; [|split; [exact Hq | reflexivity]].
    change (JsSet.has q (JsSet.of_array (Config.states c)) = true) in Hq.
    apply (proj1 (has_In _ _)) in Hq.
    apply (proj1 (In_of_array (Config.states c) q)) in Hq. exact Hq.
  - destruct (@driver_reachable c d dcalls Hd) as (Eb & Hv & q & Hq & ->).
    subst d. split; [|split; [exact Hq | reflexivity]].
    change (JsSet.has q (JsSet.of_array (Config.states c)) = true) in Hq.
    apply (proj1 (has_In _ _)) in Hq.
    apply (proj1 (In_of_array (Config.states c) q)) in Hq. exact Hq.
Qed.

(** An instance of C8 with returning and throwing calls. *)
Lemma C8_current_state_declared_witness :
  Query.constructor abcMachine = Ok (query_built abcMachine) /\
  Driver.constructor abcMachine = Ok (driver_built abcMachine) /\
  In (Query.getCurrentState
        (QueryCalls.perform_all
           [QueryCalls.Process (js "00"); QueryCalls.Process (js "012")]
           (query_built abcMachine)))
     (Config.states abcMachine) /\
  In (Driver.getCurrentState
        (DriverCalls.perform_all
           [DriverCalls.Transition (js "0"); DriverCalls.Process (js "02");
            DriverCalls.Transition (js "7"); DriverCalls.Reset;
            DriverCalls.Transition (js "1")]
           (driver_built abcMachine)))
     (Config.states abcMachine).
Proof.
  assert (Hq : Query.constructor abcMachine = Ok (query_built abcMachine))
    by (vm_compute; reflexivity).
  assert (Hd : Driver.constructor abcMachine = Ok (driver_built abcMachine))
    by (vm_compute; reflexivity).
  destruct (@C8_current_state_declared abcMachine (query_built abcMachine)
              [QueryCalls.Process (js "00"); QueryCalls.Process (js "012")]
              (driver_built abcMachine)
              [DriverCalls.Transition (js "0"); DriverCalls.Process (js "02");
               DriverCalls.Transition (js "7"); DriverCalls.Reset;
               DriverCalls.Transition (js "1")]
              Hq Hd) as ((H1 & _) & (H2 & _)).
  split; [exact Hq|]. split; [exact Hd|].
  split; [exact H1 | exact H2].
Defined.

(** ** C9: the current state after a failed [process] *)

(** C9. When [process(input)] of [src/src/index.ts] throws on a
    constructed machine, the symbols of the input split into the ones
    consumed, the failing one and the rest; the current state is the state
    reached from the initial state along the consumed symbols (the initial
    state when there are none), whatever it was before the call; the
    failing symbol is undeclared and the error is [InvalidSymbolError], or
    it is declared, the pure query returns [null] for it in that state and
    the error is the generic no-transition [Error]. *)
Theorem C9_process_failure_state
  (c : Config.FSMConfig) (m : Query.FiniteStateMachine)
  (calls : list QueryCalls.call) (input : jsstring)
  (e : exn) (this' : Query.FiniteStateMachine) :
  Query.constructor c = Ok m ->
  Query.process input (QueryCalls.perform_all calls m) = (Throw e, this') ->
  exists pre a suf q,
    codePoints input = pre ++ a :: suf /\
    follows m (Query.initialState m) pre = Some q /\
    Query.getCurrentState this' = q /\
    this' = Query.set_currentState q m /\
    (pre = [] -> q = Config.initialState c) /\
    ((Query.isValidSymbol m a = false /\ e = InvalidSymbolError a) \/
     (Query.isValidSymbol m a = true /\ Query.transition m q a = Ok None /\
      e = Error (no_transition_message q a))).
Proof.
  intros Hm Hp.
  destruct (@query_reachable c m calls Hm) as (Eb & Hv & q0 & Hq0 & E).
  rewrite E in Hp.
  assert (Hv' : query_valid (Query.set_currentState q0 m))
    by (apply query_valid_set_currentState; assumption).
  destruct (@query_process_throws input _ e this' Hv' Hp)
    as (pre & a & suf & q & Hs & Hf & -> & Hk).
  rewrite follows_set_currentState in Hf. simpl in Hf.
  exists pre, a, suf, q. repeat split; try assumption.
  intros ->. simpl in Hf. inversion Hf. subst m. reflexivity.
Qed.

(** An instance of C9: ["002"] fails on its third symbol, in state [C]. *)
Lemma C9_process_failure_state_witness :
  Query.constructor abcMachine = Ok (query_built abcMachine) /\
  Query.process (js "002")
    (QueryCalls.perform_all [QueryCalls.Process (js "0")]
       (query_built abcMachine)) =
  (Throw (InvalidSymbolError (js "2")),
   Query.set_currentState (js "C") (query_built abcMachine)) /\
  exists pre a suf q,
    codePoints (js "002") = pre ++ a :: suf /\
    follows (query_built abcMachine)
      (Query.initialState (query_built abcMachine)) pre = Some q /\
    Query.getCurrentState
      (Query.set_currentState (js "C") (query_built abcMachine)) = q.
Proof.
  assert (Hq : Query.constructor abcMachine = Ok (query_built abcMachine))
    by (vm_compute; reflexivity).
  assert (Hp : Query.process (js "002")
                 (QueryCalls.perform_all [QueryCalls.Process (js "0")]
                    (query_built abcMachine)) =
               (Throw (InvalidSymbolError (js "2")),
                Query.set_currentState (js "C") (query_built abcMachine)))
    by (vm_compute; reflexivity).
  destruct (@C9_process_failure_state abcMachine (query_built abcMachine)
              [QueryCalls.Process (js "0")] (js "002") _ _ Hq Hp)
    as (pre & a & suf & q & H1 & H2 & H3 & _).
  split; [exact Hq|]. split; [exact Hp|].
  exists pre, a, suf, q. split; [exact H1|]. split; [exact H2 | exact H3].
Defined.

(** ** C10: two pairs under one key *)

(** C10. There is a configuration that constructs, in which two distinct
    declared pairs of state and symbol, one of them with a comma in the
    state name, are written as the same key; the transition given for the
    second pair is what the pure query returns for the first, and the
    exported structure lists a triple that was not supplied. *)
Theorem C10_colliding_keys :
  exists c m s1 a1 q s2 a2 r,
    Query.constructor c = Ok m /\
    In comma s2 /\
    (s1, a1) <> (s2, a2) /\
    Query.isValidState m s1 = true /\ Query.isValidSymbol m a1 = true /\
    Query.isValidState m s2 = true /\ Query.isValidSymbol m a2 = true /\
    key_of s1 a1 = key_of s2 a2 /\
    Config.transitions c = [(s1, a1, q); (s2, a2, r)] /\
    q <> r /\
    Query.transition m s1 a1 = Ok (Some r) /\
    exists tr,
      In tr (Config.transitions (Query.getStructure m)) /\
      forall tr', In tr' (Config.transitions c) -> tr <> tr'.
Proof.
  exists collidingKeys. eexists.
  exists (js "a"), (js "b,c"), (js "q"), (js "a,b"), (js "c"), (js "r").
  split; [vm_compute; reflexivity|].
  split; [vm_compute; tauto|].
  split; [vm_compute; discriminate|].
  do 6 (split; [vm_compute; reflexivity|]).
  split; [vm_compute; discriminate|].
  split; [vm_compute; reflexivity|].
  exists (js "a", js "b", js "r").
  split; [vm_compute; tauto|].
  intros tr' [<-|[<-|[]]]; vm_compute; discriminate.
Qed.

(* ================================================================= *)
(** * Further properties of the code *)

(** Goals of the form [forall x, In x l -> P x] on a list given in full:
    one case per element. *)
Ltac each_member :=
  let H := fresh "Hin" in
  intros; match goal with
          | Hm : In _ _ |- _ => rename Hm into H
          end;
  simpl in H;
  repeat (destruct H as [H|H];
          [first [injection H as <- <- <- | injection H as <- <- | subst];
           try split; vm_compute; intuition discriminate|]);
  destruct H.

(** [NoDup] of a list given in full. *)
Ltac distinct_members :=
  repeat (constructor; [vm_compute; intuition discriminate|]); constructor.

(** ** Which configurations construct *)

Lemma state_violation_None_iff (sts : list StateName) (s : StateName) :
  state_violation sts s = None <-> In s sts.
Proof.
  unfold state_violation. rewrite <- declared_In.
  destruct (declared s sts); split; congruence.
Qed.

Lemma transition_violation_None_iff name sts alph f i t :
  transition_violation name sts alph (f, i, t) = None <->
  In f sts /\ In t sts /\ In i alph.
Proof.
  rewrite <- !declared_In. unfold transition_violation.
  destruct (declared f sts), (declared t sts), (declared i alph); simpl;
    split; intros H; try discriminate H;
    try (destruct H as (? & ? & ?); discriminate); auto.
Qed.

Lemma checks_None_iff name (c : Config.FSMConfig) :
  (check_a c = None /\ check_b c = None /\ check_c name c = None /\
   check_d c = None) <-> well_formed c.
Proof.
  unfold check_a, check_b, check_c, check_d, well_formed.
  rewrite !first_violation_None, state_violation_None_iff.
  split; intros (Ha & Hb & Hc & Hd); repeat split.
  - exact Ha.
  - intros s Hs. apply state_violation_None_iff, Hb, Hs.
  - apply (proj1 (transition_violation_None_iff _ _ _ _ _ _) (Hc _ H)).
  - apply (proj1 (transition_violation_None_iff _ _ _ _ _ _) (Hc _ H)).
  - apply (proj1 (transition_violation_None_iff _ _ _ _ _ _) (Hc _ H)).
  - intros s v Hs. apply (proj1 (state_violation_None_iff _ _) (Hd _ Hs)).
  - exact Ha.
  - intros s Hs. apply state_violation_None_iff, Hb, Hs.
  - intros [[f i] t] Hin. apply transition_violation_None_iff.
    apply (Hc _ _ _ Hin).
  - intros [s v] Hin. apply state_violation_None_iff. simpl.
    apply (Hd _ _ Hin).
Qed.

Lemma query_violation_None_iff (c : Config.FSMConfig) :
  query_violation c = None <-> well_formed c.
Proof.
  rewrite <- (checks_None_iff name_both). unfold query_violation.
  rewrite !or_else_None. tauto.
Qed.

Lemma driver_violation_None_iff (c : Config.FSMConfig) :
  driver_violation c = None <-> well_formed c.
Proof.
  rewrite <- (checks_None_iff name_source_first). unfold driver_violation.
  rewrite !or_else_None. tauto.
Qed.

(** X1. A configuration constructs exactly when its initial state, its
    accepting states, the endpoints of its transitions and the states of
    its outputs are declared states and the symbols of its transitions are
    declared symbols; this is so in both versions of the source, which
    therefore accept the same configurations, and a constructed machine
    starts in the initial state. *)
Theorem X1_constructs_iff_well_formed (c : Config.FSMConfig) :
  ((exists m, Query.constructor c = Ok m) <-> well_formed c) /\
  ((exists d, Driver.constructor c = Ok d) <-> well_formed c) /\
  (forall m, Query.constructor c = Ok m ->
             Query.getCurrentState m = Config.initialState c) /\
  (forall d, Driver.constructor c = Ok d ->
             Driver.getCurrentState d = Config.initialState c).
Proof.
  split; [split | split; [split | split]].
  - intros [m H]. apply query_constructor_Ok in H.
    apply query_violation_None_iff, H.
  - intros H. apply query_violation_None_iff in H.
    rewrite query_constructor_spec, H. eauto.
  - intros [d H]. apply driver_constructor_Ok in H.
    apply driver_violation_None_iff, H.
  - intros H. apply driver_violation_None_iff in H.
    rewrite driver_constructor_spec, H. eauto.
  - intros m H. apply query_constructor_Ok in H. destruct H as (_ & ->).
    reflexivity.
  - intros d H. apply driver_constructor_Ok in H. destruct H as (_ & ->).
    reflexivity.
Qed.

(** ** Exporting the structure *)

Lemma of_array_NoDup_id (l : list jsstring) :
  NoDup l -> JsSet.of_array l = l.
Proof.
  intros H. unfold JsSet.of_array, JsSet.empty.
  now rewrite fold_add_NoDup_id.
Qed.

Lemma of_entries_NoDup_id {V} (l : list (jsstring * V)) :
  NoDup (map fst l) -> JsMap.of_entries l = l.
Proof.
  intros H. unfold JsMap.of_entries, JsMap.empty.
  now rewrite fold_set_NoDup_id.
Qed.

Lemma table_of_keyed (trs : list Transition) :
  table_of trs = JsMap.of_entries (map keyed trs).
Proof. reflexivity. Qed.

Lemma keys_of_pairs (trs : list Transition) :
  map fst (map keyed trs) =
  map (fun p : StateName * InputSymbol => key_of (fst p) (snd p))
      (map pair_of trs).
Proof.
  rewrite !map_map. apply map_ext. now intros [[f i] t].
Qed.

(** Transitions with distinct pairs of source and symbol are written
    under distinct keys when no source contains a comma. *)
Lemma NoDup_keys_of_pairs (trs : list Transition) :
  (forall f i t, In (f, i, t) trs -> ~ In comma f) ->
  NoDup (map pair_of trs) -> NoDup (map fst (map keyed trs)).
Proof.
  intros Hc Hnd. rewrite keys_of_pairs.
  apply NoDup_map_NoDup_ForallPairs; [|exact Hnd].
  intros [f i] [f' i'] Hin Hin' E. simpl in E.
  apply in_map_iff in Hin. destruct Hin as ([[f0 i0] t0] & E0 & Hin).
  apply in_map_iff in Hin'. destruct Hin' as ([[f1 i1] t1] & E1 & Hin').
  simpl in E0, E1. inversion E0; subst. inversion E1; subst.
  destruct (@key_of_inj f i f' i' (Hc _ _ _ Hin) (Hc _ _ _ Hin') E)
    as [-> ->].
  reflexivity.
Qed.

Lemma query_getStructure_set_currentState q m :
  Query.getStructure (Query.set_currentState q m) = Query.getStructure m.
Proof. reflexivity. Qed.

Lemma driver_getStructure_set_currentState q d :
  Driver.getStructure (Driver.set_currentState q d) = Driver.getStructure d.
Proof. reflexivity. Qed.

Lemma driver_violation_of_query (c : Config.FSMConfig) :
  query_violation c = None -> driver_violation c = None.
Proof.
  intros H. apply driver_violation_None_iff, query_violation_None_iff, H.
Qed.

(** X2. In [src/src/index.ts], when no source state and no symbol of a
    transition contains a comma, constructing a machine from the structure
    exported by [getStructure], at any moment of the life of a machine,
    succeeds and gives the machine as it was first constructed: the same
    sets and tables in the same order, in the initial state. *)
Theorem X2_query_round_trip
  (c : Config.FSMConfig) (m : Query.FiniteStateMachine)
  (calls : list QueryCalls.call) :
  Query.constructor c = Ok m ->
  (forall f i t, In (f, i, t) (Config.transitions c) ->
                 ~ In comma f /\ ~ In comma i) ->
  Query.constructor (Query.getStructure (QueryCalls.perform_all calls m))
  = Ok m.
Proof.
  intros Hm Hc.
  destruct (@query_reachable c m calls Hm) as (_ & _ & q & _ & ->).
  rewrite query_getStructure_set_currentState.
  apply query_constructor_Ok in Hm. destruct Hm as (Hn & ->).
  rewrite query_constructor_spec.
  rewrite (@exported_no_violation c Hn Hc), (@exported_built c Hc).
  reflexivity.
Qed.

(** An instance of X2 on the machine of the test suite, after a run. *)
Lemma X2_query_round_trip_witness :
  Query.constructor abcMachine = Ok (query_built abcMachine) /\
  Query.constructor
    (Query.getStructure
       (QueryCalls.perform_all [QueryCalls.Process (js "00")]
          (query_built abcMachine)))
  = Ok (query_built abcMachine).
Proof.
  assert (Hq : Query.constructor abcMachine = Ok (query_built abcMachine))
    by (vm_compute; reflexivity).
  split; [exact Hq|].
  apply (@X2_query_round_trip abcMachine (query_built abcMachine)
           [QueryCalls.Process (js "00")] Hq).
  each_member.
Defined.

(** X3. The same round trip in [src/unnamed/part_000]. *)
Theorem X3_driver_round_trip
  (c : Config.FSMConfig) (d : Driver.FiniteStateMachine)
  (calls : list DriverCalls.call) :
  Driver.constructor c = Ok d ->
  (forall f i t, In (f, i, t) (Config.transitions c) ->
                 ~ In comma f /\ ~ In comma i) ->
  Driver.constructor (Driver.getStructure (DriverCalls.perform_all calls d))
  = Ok d.
Proof.
  intros Hd Hc.
  destruct (@driver_reachable c d calls Hd) as (_ & _ & q & _ & ->).
  rewrite driver_getStructure_set_currentState.
  apply driver_constructor_Ok in Hd. destruct Hd as (Hn & ->).
  apply driver_violation_None in Hn.
  rewrite driver_constructor_spec.
  change (Driver.getStructure (driver_built c))
    with (Query.getStructure (query_built c)).
  rewrite (@driver_violation_of_query _ (@exported_no_violation c Hn Hc)).
  change (driver_built (Query.getStructure (query_built c)))
    with (to_driver (query_built (Query.getStructure (query_built c)))).
  rewrite (@exported_built c Hc). reflexivity.
Qed.

(** An instance of X3 on the machine of the test suite, after a run. *)
Lemma X3_driver_round_trip_witness :
  Driver.constructor abcMachine = Ok (driver_built abcMachine) /\
  Driver.constructor
    (Driver.getStructure
       (DriverCalls.perform_all
          [DriverCalls.Transition (js "0"); DriverCalls.Process (js "02")]
          (driver_built abcMachine)))
  = Ok (driver_built abcMachine).
Proof.
  assert (Hd : Driver.constructor abcMachine = Ok (driver_built abcMachine))
    by (vm_compute; reflexivity).
  split; [exact Hd|].
  apply (@X3_driver_round_trip abcMachine (driver_built abcMachine)
           [DriverCalls.Transition (js "0"); DriverCalls.Process (js "02")]
           Hd).
  each_member.
Defined.

(** ** The exported structure and the configuration *)

(** X4. When a configuration lists no state, symbol or accepting state
    twice, gives at most one transition per pair of source and symbol and
    at most one output per state, and has no comma in the sources and
    symbols of its transitions, [getStructure] returns that very
    configuration, every sequence in its original order, in both
    versions. *)
Theorem X4_export_is_configuration
  (c : Config.FSMConfig)
  (m : Query.FiniteStateMachine) (d : Driver.FiniteStateMachine) :
  Query.constructor c = Ok m ->
  Driver.constructor c = Ok d ->
  NoDup (Config.states c) ->
  NoDup (Config.alphabet c) ->
  NoDup (Config.acceptingStates c) ->
  NoDup (map pair_of (Config.transitions c)) ->
  NoDup (map fst (Config.outputs c)) ->
  (forall f i t, In (f, i, t) (Config.transitions c) ->
                 ~ In comma f /\ ~ In comma i) ->
  Query.getStructure m = c /\ Driver.getStructure d = c.
Proof.
  intros Hm Hd Hs Ha Hacc Htr Hout Hc.
  apply query_constructor_Ok in Hm. destruct Hm as (_ & ->).
  apply driver_constructor_Ok in Hd. destruct Hd as (_ & ->).
  change (Driver.getStructure (driver_built c))
    with (Query.getStructure (query_built c)).
  assert (E : Query.getStructure (query_built c) = c); [|now split].
  destruct c as [sts alph init acc trs outs]. simpl in *.
  unfold Query.getStructure, query_built. simpl.
  unfold JsSet.to_array, JsMap.entries.
  rewrite !of_array_NoDup_id by assumption.
  rewrite (of_entries_NoDup_id outs) by assumption.
  rewrite table_of_keyed, of_entries_NoDup_id.
  - rewrite map_map. rewrite map_ext_In_id; [reflexivity|].
    intros [[f i] t] Hin. simpl.
    destruct (Hc _ _ _ Hin) as (Hf & Hi).
    pose proof (@first_two_key_of f i Hf Hi) as E. unfold first_two in E.
    injection E as E0 E1. now rewrite E0, E1.
  - apply NoDup_keys_of_pairs; [|assumption].
    intros f i t Hin. apply (Hc _ _ _ Hin).
Qed.

(** An instance of X4: the structure exported by the machine of the test
    suite is its configuration. *)
Lemma X4_export_is_configuration_witness :
  Query.constructor abcMachine = Ok (query_built abcMachine) /\
  Driver.constructor abcMachine = Ok (driver_built abcMachine) /\
  Query.getStructure (query_built abcMachine) = abcMachine /\
  Driver.getStructure (driver_built abcMachine) = abcMachine.
Proof.
  assert (Hq : Query.constructor abcMachine = Ok (query_built abcMachine))
    by (vm_compute; reflexivity).
  assert (Hd : Driver.constructor abcMachine = Ok (driver_built abcMachine))
    by (vm_compute; reflexivity).
  split; [exact Hq|]. split; [exact Hd|].
  apply (@X4_export_is_configuration abcMachine _ _ Hq Hd).
  1-5: simpl; distinct_members.
  each_member.
Defined.

(** X5. No public call changes anything but the current state: after any
    sequence of calls, returning or throwing, [getStructure] exports what
    it exported right after construction, in both versions. *)
Theorem X5_structure_never_changes
  (c : Config.FSMConfig)
  (m : Query.FiniteStateMachine) (qcalls : list QueryCalls.call)
  (d : Driver.FiniteStateMachine) (dcalls : list DriverCalls.call) :
  Query.constructor c = Ok m ->
  Driver.constructor c = Ok d ->
  Query.getStructure (QueryCalls.perform_all qcalls m)
  = Query.getStructure m /\
  Driver.getStructure (DriverCalls.perform_all dcalls d)
  = Driver.getStructure d.
Proof.
  intros Hm Hd.
  destruct (@query_reachable c m qcalls Hm) as (_ & _ & q & _ & ->).
  destruct (@driver_reachable c d dcalls Hd) as (_ & _ & q' & _ & ->).
  split; reflexivity.
Qed.

(** An instance of X5 with returning and throwing calls. *)
Lemma X5_structure_never_changes_witness :
  Query.constructor abcMachine = Ok (query_built abcMachine) /\
  Driver.constructor abcMachine = Ok (driver_built abcMachine) /\
  Query.getStructure
    (QueryCalls.perform_all
       [QueryCalls.Process (js "00"); QueryCalls.Process (js "012")]
       (query_built abcMachine))
  = Query.getStructure (query_built abcMachine) /\
  Driver.getStructure
    (DriverCalls.perform_all
       [DriverCalls.Transition (js "0"); DriverCalls.Process (js "02");
        DriverCalls.Reset; DriverCalls.Transition (js "7")]
       (driver_built abcMachine))
  = Driver.getStructure (driver_built abcMachine).
Proof.
  assert (Hq : Query.constructor abcMachine = Ok (query_built abcMachine))
    by (vm_compute; reflexivity).
  assert (Hd : Driver.constructor abcMachine = Ok (driver_built abcMachine))
    by (vm_compute; reflexivity).
  split; [exact Hq|]. split; [exact Hd|].
  exact (@X5_structure_never_changes abcMachine
           (query_built abcMachine)
           [QueryCalls.Process (js "00"); QueryCalls.Process (js "012")]
           (driver_built abcMachine)
           [DriverCalls.Transition (js "0"); DriverCalls.Process (js "02");
            DriverCalls.Reset; DriverCalls.Transition (js "7")]
           Hq Hd).
Defined.

(** ** [process] and the calls made before it *)

(** X6. [process] starts from the initial state whatever was called
    before: after any sequence of calls it returns or throws exactly what
    it does on the freshly constructed machine, and leaves the machine in
    the same state, in both versions. *)
Theorem X6_process_forgets_history
  (c : Config.FSMConfig) (input : jsstring)
  (m : Query.FiniteStateMachine) (qcalls : list QueryCalls.call)
  (d : Driver.FiniteStateMachine) (dcalls : list DriverCalls.call) :
  Query.constructor c = Ok m ->
  Driver.constructor c = Ok d ->
  Query.process input (QueryCalls.perform_all qcalls m)
  = Query.process input m /\
  Driver.process input (DriverCalls.perform_all dcalls d)
  = Driver.process input d.
Proof.
  intros Hm Hd.
  destruct (@query_reachable c m qcalls Hm) as (_ & _ & q & _ & ->).
  destruct (@driver_reachable c d dcalls Hd) as (_ & _ & q' & _ & ->).
  split; reflexivity.
Qed.

(** An instance of X6: ["001"] after other runs. *)
Lemma X6_process_forgets_history_witness :
  Query.constructor abcMachine = Ok (query_built abcMachine) /\
  Driver.constructor abcMachine = Ok (driver_built abcMachine) /\
  Query.process (js "001")
    (QueryCalls.perform_all [QueryCalls.Process (js "0")]
       (query_built abcMachine))
  = Query.process (js "001") (query_built abcMachine) /\
  Driver.process (js "001")
    (DriverCalls.perform_all
       [DriverCalls.Transition (js "0"); DriverCalls.Process (js "02")]
       (driver_built abcMachine))
  = Driver.process (js "001") (driver_built abcMachine).
Proof.
  assert (Hq : Query.constructor abcMachine = Ok (query_built abcMachine))
    by (vm_compute; reflexivity).
  assert (Hd : Driver.constructor abcMachine = Ok (driver_built abcMachine))
    by (vm_compute; reflexivity).
  split; [exact Hq|]. split; [exact Hd|].
  exact (@X6_process_forgets_history abcMachine (js "001")
           (query_built abcMachine) [QueryCalls.Process (js "0")]
           (driver_built abcMachine)
           [DriverCalls.Transition (js "0"); DriverCalls.Process (js "02")]
           Hq Hd).
Defined.

(** ** The pure query and the configuration *)

Lemma str_eqb_key_of (s a f i : jsstring) :
  ~ In comma s -> ~ In comma f ->
  str_eqb (key_of s a) (key_of f i) = str_eqb s f && str_eqb a i.
Proof.
  intros Hs Hf. apply eq_true_iff_eq.
  rewrite andb_true_iff, !str_eqb_eq. split.
  - intros E. now apply key_of_inj.
  - now intros [-> ->].
Qed.

Lemma find_keyed (l : list Transition) (s a : jsstring) :
  (forall f i t, In (f, i, t) l -> ~ In comma f) -> ~ In comma s ->
  match find (fun kv : jsstring * StateName => str_eqb (key_of s a) (fst kv))
             (map keyed l) with
  | Some kv => Some (snd kv)
  | None => None
  end =
  match find (fun tr : Transition =>
                str_eqb s (fst (pair_of tr)) && str_eqb a (snd (pair_of tr)))
             l with
  | Some (_, _, toState) => Some toState
  | None => None
  end.
Proof.
  intros Hc Hs. induction l as [|[[f i] t] l IH]; simpl; [reflexivity|].
  rewrite str_eqb_key_of; [|assumption | apply (Hc f i t); now left].
  destruct (str_eqb s f && str_eqb a i); [reflexivity|].
  apply IH. intros f' i' t' Hin. apply (Hc f' i' t'). now right.
Qed.

Lemma assoc_last_keyed (trs : list Transition) (s a : jsstring) :
  (forall f i t, In (f, i, t) trs -> ~ In comma f) -> ~ In comma s ->
  assoc_last (key_of s a) (map keyed trs) = last_transition s a trs.
Proof.
  intros Hc Hs. unfold assoc_last, last_transition.
  rewrite <- map_rev. apply find_keyed; [|assumption].
  intros f i t Hin. apply in_rev in Hin. apply (Hc f i t Hin).
Qed.

Lemma query_built_isValidState (c : Config.FSMConfig) (s : StateName) :
  Query.isValidState (query_built c) s = declared s (Config.states c).
Proof. apply has_of_array. Qed.

Lemma query_built_isValidSymbol (c : Config.FSMConfig) (a : InputSymbol) :
  Query.isValidSymbol (query_built c) a = declared a (Config.alphabet c).
Proof. apply has_of_array. Qed.

Lemma declared_false (x : jsstring) (l : list jsstring) :
  declared x l = false <-> ~ In x l.
Proof.
  rewrite <- declared_In. destruct (declared x l); split; congruence.
Qed.

(** X7. On a machine of [src/src/index.ts] whose declared state names
    contain no comma, the pure [transition] query, at any moment, throws
    [InvalidStateError] for an undeclared state whatever the symbol,
    throws [InvalidSymbolError] for a declared state and an undeclared
    symbol, and otherwise answers from the last transition the
    configuration gives for exactly this state and this symbol: its
    destination when there is one and it is not the empty string, [null]
    otherwise. *)
Theorem X7_transition_reads_last_transition
  (c : Config.FSMConfig) (m : Query.FiniteStateMachine)
  (calls : list QueryCalls.call) (s : StateName) (a : InputSymbol) :
  Query.constructor c = Ok m ->
  (forall st, In st (Config.states c) -> ~ In comma st) ->
  (~ In s (Config.states c) ->
   Query.transition (QueryCalls.perform_all calls m) s a
   = Throw (InvalidStateError s)) /\
  (In s (Config.states c) -> ~ In a (Config.alphabet c) ->
   Query.transition (QueryCalls.perform_all calls m) s a
   = Throw (InvalidSymbolError a)) /\
  (In s (Config.states c) -> In a (Config.alphabet c) ->
   Query.transition (QueryCalls.perform_all calls m) s a
   = Ok (or_null (last_transition s a (Config.transitions c)))).
Proof.
  intros Hm Hc.
  destruct (@query_reachable c m calls Hm) as (_ & _ & q & _ & ->).
  rewrite query_transition_set_currentState.
  apply query_constructor_Ok in Hm. destruct Hm as (Hn & ->).
  apply query_violation_None_iff in Hn. destruct Hn as (_ & _ & Htr & _).
  unfold Query.transition.
  rewrite query_built_isValidState, query_built_isValidSymbol.
  split; [|split].
  - intros Hs. apply declared_false in Hs. now rewrite Hs.
  - intros Hs Ha. apply declared_In in Hs. apply declared_false in Ha.
    now rewrite Hs, Ha.
  - intros Hs Ha. pose proof (Hc s Hs) as Hcs.
    apply declared_In in Hs. apply declared_In in Ha.
    rewrite Hs, Ha. simpl. f_equal. f_equal.
    change (Query.transitionFunction (query_built c))
      with (table_of (Config.transitions c)).
    rewrite table_of_keyed, get_of_entries.
    apply assoc_last_keyed; [|assumption].
    intros f i t Hin. apply Hc. apply (Htr f i t Hin).
Qed.

(** An instance of X7 on the machine of the test suite. *)
Lemma X7_transition_reads_last_transition_witness :
  Query.constructor abcMachine = Ok (query_built abcMachine) /\
  Query.transition (query_built abcMachine) (js "D") (js "7")
  = Throw (InvalidStateError (js "D")) /\
  Query.transition (query_built abcMachine) (js "B") (js "7")
  = Throw (InvalidSymbolError (js "7")) /\
  Query.transition (query_built abcMachine) (js "B") (js "0")
  = Ok (Some (js "C")).
Proof.
  assert (Hq : Query.constructor abcMachine = Ok (query_built abcMachine))
    by (vm_compute; reflexivity).
  assert (Hc : forall st, In st (Config.states abcMachine) -> ~ In comma st)
    by each_member.
  destruct (@X7_transition_reads_last_transition abcMachine
              (query_built abcMachine) [] (js "D") (js "7") Hq Hc)
    as (H1 & _).
  destruct (@X7_transition_reads_last_transition abcMachine
              (query_built abcMachine) [] (js "B") (js "7") Hq Hc)
    as (_ & H2 & _).
  destruct (@X7_transition_reads_last_transition abcMachine
              (query_built abcMachine) [] (js "B") (js "0") Hq Hc)
    as (_ & _ & H3).
  split; [exact Hq|].
  split; [apply H1; vm_compute; intuition discriminate|].
  split; [apply H2; vm_compute; intuition discriminate|].
  apply H3; vm_compute; tauto.
Defined.

(** ** The two versions side by side *)

Lemma to_driver_set_currentState q m :
  to_driver (Query.set_currentState q m)
  = Driver.set_currentState q (to_driver m).
Proof. reflexivity. Qed.

Lemma driver_built_to_driver (c : Config.FSMConfig) :
  driver_built c = to_driver (query_built c).
Proof. reflexivity. Qed.

(** The stateful [transition] on the object with the fields of [this] does
    what the pure query says for the current state. *)
Lemma driver_transition_to_driver a this :
  Query.isValidState this (Query.currentState this) = true ->
  Driver.transition a (to_driver this) =
  match Query.transition this (Query.currentState this) a with
  | Ok (Some q) => (Ok (Some q), to_driver (Query.set_currentState q this))
  | Ok None => (Ok None, to_driver this)
  | Throw e => (Throw e, to_driver this)
  end.
Proof.
  intros Hv. rewrite driver_transition_step. unfold Query.transition.
  rewrite Hv. simpl.
  change (Driver.isValidSymbol (to_driver this) a)
    with (Query.isValidSymbol this a).
  destruct (Query.isValidSymbol this a); simpl; [|reflexivity].
  change (JsMap.get (key_of (Driver.currentState (to_driver this)) a)
            (Driver.transitionMap (to_driver this)))
    with (JsMap.get (key_of (Query.currentState this) a)
            (Query.transitionFunction this)).
  destruct (JsMap.get (key_of (Query.currentState this) a)
              (Query.transitionFunction this)) as [next|]; [|reflexivity].
  simpl. destruct (truthy_str next); reflexivity.
Qed.

(** X8. The stateful [transition(input)] of [src/unnamed/part_000] is the
    pure [transition(currentState, input)] of [src/src/index.ts] followed
    by a move: on machines built from the same configuration, at any
    moment, it throws what the pure query throws for the current state,
    returns what it returns, and changes the current state exactly when
    the pure query returns a destination, to that destination. *)
Theorem X8_stateful_transition_is_query_then_move
  (c : Config.FSMConfig) (m : Query.FiniteStateMachine)
  (d : Driver.FiniteStateMachine) (calls : list DriverCalls.call)
  (a : InputSymbol) :
  Query.constructor c = Ok m ->
  Driver.constructor c = Ok d ->
  Driver.transition a (DriverCalls.perform_all calls d) =
  match Query.transition m
          (Driver.getCurrentState (DriverCalls.perform_all calls d)) a with
  | Ok (Some q) => (Ok (Some q), Driver.set_currentState q d)
  | Ok None => (Ok None, DriverCalls.perform_all calls d)
  | Throw e => (Throw e, DriverCalls.perform_all calls d)
  end.
Proof.
  intros Hm Hd.
  destruct (@driver_reachable c d calls Hd) as (-> & _ & q & Hq & ->).
  apply query_constructor_Ok in Hm. destruct Hm as (_ & ->).
  rewrite driver_built_to_driver, <- to_driver_set_currentState.
  rewrite driver_transition_to_driver by exact Hq.
  change (Driver.getCurrentState
            (to_driver (Query.set_currentState q (query_built c)))) with q.
  change (Query.currentState (Query.set_currentState q (query_built c)))
    with q.
  rewrite query_transition_set_currentState.
  destruct (Query.transition (query_built c) q a) as [[q'|]|e]; reflexivity.
Qed.

(** An instance of X8 on the machine of the test suite, in state [B]. *)
Lemma X8_stateful_transition_is_query_then_move_witness :
  Query.constructor abcMachine = Ok (query_built abcMachine) /\
  Driver.constructor abcMachine = Ok (driver_built abcMachine) /\
  Driver.transition (js "0")
    (DriverCalls.perform_all [DriverCalls.Transition (js "0")]
       (driver_built abcMachine))
  = (Ok (Some (js "C")),
     Driver.set_currentState (js "C") (driver_built abcMachine)).
Proof.
  assert (Hq : Query.constructor abcMachine = Ok (query_built abcMachine))
    by (vm_compute; reflexivity).
  assert (Hd : Driver.constructor abcMachine = Ok (driver_built abcMachine))
    by (vm_compute; reflexivity).
  split; [exact Hq|]. split; [exact Hd|].
  exact (@X8_stateful_transition_is_query_then_move abcMachine
           (query_built abcMachine) (driver_built abcMachine)
           [DriverCalls.Transition (js "0")] (js "0") Hq Hd).
Defined.

Lemma process_symbol_to_driver a this :
  Query.isValidState this (Query.currentState this) = true ->
  Driver.process_symbol a (to_driver this) =
  (fst (Query.process_symbol a this),
   to_driver (snd (Query.process_symbol a this))).
Proof.
  intros Hv.
  rewrite driver_process_symbol_step, (@driver_transition_to_driver a this Hv).
  rewrite query_process_symbol_step.
  destruct (Query.isValidSymbol this a) eqn:Ea; simpl.
  - destruct (Query.transition this (Query.currentState this) a)
      as [[q|]|e]; reflexivity.
  - unfold Query.transition. rewrite Hv, Ea. reflexivity.
Qed.

Lemma loop_to_driver (symbols : list jsstring) this :
  query_valid this ->
  for_of symbols Driver.process_symbol (to_driver this) =
  (fst (for_of symbols Query.process_symbol this),
   to_driver (snd (for_of symbols Query.process_symbol this))).
Proof.
  revert this. induction symbols as [|a rest IH]; intros this Hv; simpl.
  - reflexivity.
  - unfold bind.
    rewrite process_symbol_to_driver by apply Hv.
    rewrite query_process_symbol_step.
    destruct (Query.isValidSymbol this a) eqn:Ea; simpl; [|reflexivity].
    destruct (Query.transition this (Query.currentState this) a)
      as [[q|]|e] eqn:Et; simpl; try reflexivity.
    apply IH. apply query_valid_set_currentState; [exact Hv|].
    apply query_transition_Some in Et. destruct Et as (_ & _ & Et & _).
    destruct Hv as (_ & _ & Ht). apply get_In in Et. eauto.
Qed.

Lemma process_to_driver input this :
  query_valid this ->
  Driver.process input (to_driver this) =
  (fst (Query.process input this),
   to_driver (snd (Query.process input this))).
Proof.
  intros Hv.
  assert (Hv0 : query_valid
                  (Query.set_currentState (Query.initialState this) this))
    by (apply query_valid_set_currentState; [exact Hv | apply Hv]).
  rewrite driver_process_unfold, query_process_unfold.
  change (Driver.set_currentState (Driver.initialState (to_driver this))
            (to_driver this))
    with (to_driver (Query.set_currentState (Query.initialState this) this)).
  rewrite (@loop_to_driver (codePoints input) _ Hv0).
  pose proof (query_loop (codePoints input)
                (Query.set_currentState (Query.initialState this) this))
    as Hl.
  revert Hl.
  destruct (for_of (codePoints input) Query.process_symbol
              (Query.set_currentState (Query.initialState this) this))
    as [[[]|e] this1]; intros Hl; simpl; [|reflexivity].
  destruct Hl as (q & Hq & ->).
  assert (Hvq : Query.isValidState this q = true).
  { rewrite follows_set_currentState in Hq. simpl in Hq.
    eapply follows_valid; eauto. apply Hv. }
  unfold Query.getOutput, Query.isAcceptingState, Query.isValidState in *.
  simpl. rewrite Hvq. reflexivity.
Qed.

(** X9. The two versions agree on [process]: on machines built from the
    same configuration, after any calls made on each, [process(input)]
    returns the same result or throws the same exception in both, and
    leaves both machines in the same current state. *)
Theorem X9_versions_agree_on_process
  (c : Config.FSMConfig) (input : jsstring)
  (m : Query.FiniteStateMachine) (qcalls : list QueryCalls.call)
  (d : Driver.FiniteStateMachine) (dcalls : list DriverCalls.call) :
  Query.constructor c = Ok m ->
  Driver.constructor c = Ok d ->
  fst (Driver.process input (DriverCalls.perform_all dcalls d))
  = fst (Query.process input (QueryCalls.perform_all qcalls m)) /\
  Driver.getCurrentState
    (snd (Driver.process input (DriverCalls.perform_all dcalls d)))
  = Query.getCurrentState
      (snd (Query.process input (QueryCalls.perform_all qcalls m))).
Proof.
  intros Hm Hd.
  destruct (@query_reachable c m qcalls Hm) as (-> & Hv & q & _ & ->).
  destruct (@driver_reachable c d dcalls Hd) as (-> & _ & q' & _ & ->).
  change (Driver.process input (Driver.set_currentState q' (driver_built c)))
    with (Driver.process input (to_driver (query_built c))).
  change (Query.process input (Query.set_currentState q (query_built c)))
    with (Query.process input (query_built c)).
  rewrite (@process_to_driver input _ Hv). split; reflexivity.
Qed.

(** An instance of X9: ["002"] throws the same exception in both. *)
Lemma X9_versions_agree_on_process_witness :
  Query.constructor abcMachine = Ok (query_built abcMachine) /\
  Driver.constructor abcMachine = Ok (driver_built abcMachine) /\
  fst (Driver.process (js "002")
         (DriverCalls.perform_all [DriverCalls.Transition (js "1")]
            (driver_built abcMachine)))
  = Throw (InvalidSymbolError (js "2")) /\
  fst (Query.process (js "002")
         (QueryCalls.perform_all [QueryCalls.Process (js "0")]
            (query_built abcMachine)))
  = Throw (InvalidSymbolError (js "2")).
Proof.
  assert (Hq : Query.constructor abcMachine = Ok (query_built abcMachine))
    by (vm_compute; reflexivity).
  assert (Hd : Driver.constructor abcMachine = Ok (driver_built abcMachine))
    by (vm_compute; reflexivity).
  destruct (@X9_versions_agree_on_process abcMachine (js "002")
              (query_built abcMachine) [QueryCalls.Process (js "0")]
              (driver_built abcMachine) [DriverCalls.Transition (js "1")]
              Hq Hd) as (H1 & _).
  split; [exact Hq|]. split; [exact Hd|].
  split; [rewrite H1|]; vm_compute; reflexivity.
Defined.

(** ** What [process] computes *)

(** X10. On a machine of [src/src/index.ts], at any moment,
    [process(input)] walks the table from the initial state, one symbol
    per code point.  When the pure query gives a destination at every
    step, it returns: [finalState] is the state reached, [accepted] tells
    whether that state is among the configured accepting states, [output]
    is the last output configured for it when this is not [undefined] and
    [null] otherwise, and the machine is left in that state.  When some
    step gives no destination, it throws. *)
Theorem X10_process_walks_the_table
  (c : Config.FSMConfig) (m : Query.FiniteStateMachine)
  (calls : list QueryCalls.call) (input : jsstring) :
  Query.constructor c = Ok m ->
  match follows m (Config.initialState c) (codePoints input) with
  | Some q =>
      Query.process input (QueryCalls.perform_all calls m) =
      (Ok {| accepted := declared q (Config.acceptingStates c);
             output := match assoc_last q (Config.outputs c) with
                       | Some v => defined_or_null v
                       | None => VNull
                       end;
             finalState := q |},
       Query.set_currentState q m)
  | None =>
      exists e this',
        Query.process input (QueryCalls.perform_all calls m)
        = (Throw e, this')
  end.
Proof.
  intros Hm.
  destruct (@query_reachable c m calls Hm) as (-> & Hv & q0 & _ & ->).
  change (Query.process input (Query.set_currentState q0 (query_built c)))
    with (Query.process input (query_built c)).
  destruct (follows (query_built c) (Config.initialState c) (codePoints input))
    as [q|] eqn:Hf.
  - change (Config.initialState c)
      with (Query.initialState (query_built c)) in Hf.
    rewrite (@query_process_returns input _ q Hv Hf). do 3 f_equal.
    + apply has_of_array.
    + unfold get_value.
      change (Query.outputFunction (query_built c))
        with (JsMap.of_entries (Config.outputs c)).
      rewrite get_of_entries.
      now destruct (assoc_last q (Config.outputs c)).
  - destruct (Query.process input (query_built c)) as [[r|e] this'] eqn:Hp.
    + destruct (@query_process_Ok input _ r this' Hv Hp) as (q & Hq).
      change (Query.initialState (query_built c))
        with (Config.initialState c) in Hq.
      congruence.
    + eauto.
Qed.

(** An instance of X10: ["001"] on the machine of the test suite. *)
Lemma X10_process_walks_the_table_witness :
  Query.constructor abcMachine = Ok (query_built abcMachine) /\
  follows (query_built abcMachine) (js "A") (codePoints (js "001"))
  = Some (js "C") /\
  Query.process (js "001") (query_built abcMachine) =
  (Ok {| accepted := true;
         output := VStr (js "Output C");
         finalState := js "C" |},
   Query.set_currentState (js "C") (query_built abcMachine)).
Proof.
  assert (Hq : Query.constructor abcMachine = Ok (query_built abcMachine))
    by (vm_compute; reflexivity).
  split; [exact Hq|]. split; [vm_compute; reflexivity|].
  exact (@X10_process_walks_the_table abcMachine (query_built abcMachine)
           [] (js "001") Hq).
Defined.




Lemma driver_loop_is_transitions (symbols : list jsstring) this this' :
  for_of symbols Driver.process_symbol this = (Ok tt, this') ->
  DriverCalls.perform_all (map DriverCalls.Transition symbols) this = this'.
Proof.
  revert this. induction symbols as [|a rest IH]; intros this; simpl.
  - intros H. now inversion H.
  - unfold bind. rewrite driver_process_symbol_step.
    destruct (Driver.transition a this) as [[[q|]|e] this1]; simpl;
      try discriminate.
    apply IH.
Qed.

(** X12. In [src/unnamed/part_000], when [process(input)] returns it has
    done what [reset()] followed by one [transition(symbol)] per code
    point of the input does, and its result is what the queries then
    report: [accepted] is [isInAcceptingState()], [finalState] is
    [getCurrentState()], and [output] is [getOutput()] with [undefined]
    replaced by [null]. *)
Theorem X12_process_is_reset_then_transitions
  (d d' : Driver.FiniteStateMachine) (input : jsstring) (r : ProcessResult) :
  Driver.process input d = (Ok r, d') ->
  DriverCalls.perform_all
    (DriverCalls.Reset :: map DriverCalls.Transition (codePoints input)) d
  = d' /\
  accepted r = Driver.isInAcceptingState d' /\
  finalState r = Driver.getCurrentState d' /\
  output r = defined_or_null (Driver.getOutput d').
Proof.
  rewrite driver_process_unfold. simpl.
  destruct (for_of (codePoints input) Driver.process_symbol
              (Driver.set_currentState (Driver.initialState d) d))
    as [[[]|e] this1] eqn:Hl; intros H; inversion H; subst; simpl.
  split; [|auto].
  now apply driver_loop_is_transitions.
Qed.

(** An instance of X12: ["001"] on the machine of the test suite. *)
Lemma X12_process_is_reset_then_transitions_witness :
  Driver.process (js "001")
    (Driver.set_currentState (js "B") (driver_built abcMachine))
  = (Ok {| accepted := true;
           output := VStr (js "Output C");
           finalState := js "C" |},
     Driver.set_currentState (js "C") (driver_built abcMachine)) /\
  DriverCalls.perform_all
    [DriverCalls.Reset; DriverCalls.Transition (js "0");
     DriverCalls.Transition (js "0"); DriverCalls.Transition (js "1")]
    (Driver.set_currentState (js "B") (driver_built abcMachine))
  = Driver.set_currentState (js "C") (driver_built abcMachine).
Proof.
  assert (Hp : Driver.process (js "001")
                 (Driver.set_currentState (js "B") (driver_built abcMachine))
               = (Ok {| accepted := true;
                        output := VStr (js "Output C");
                        finalState := js "C" |},
                  Driver.set_currentState (js "C")
                    (driver_built abcMachine)))
    by (vm_compute; reflexivity).
  split; [exact Hp|].
  exact (proj1 (@X12_process_is_reset_then_transitions _ _ _ _ Hp)).
Defined.

(** ** The keys of the transition table *)

Lemma nth0_split_key_of (a b : jsstring) :
  ~ In comma a -> nth 0 (split comma (key_of a b)) [] = a.
Proof.
  intros Ha. unfold key_of. now rewrite split_app_sep.
Qed.

(** X13. The key [`${fromState},${input}`] written by the constructor
    always splits on [","] into at least two pieces.  When the source
    state contains no comma, the first piece is the source, the key of no
    other pair with a comma-free source is the same, and, when the symbol
    contains no comma either, the first two pieces that [getStructure]
    reads back are the source and the symbol. *)
Theorem X13_keys_decode (a b : jsstring) :
  2 <= List.length (split comma (key_of a b)) /\
  (~ In comma a ->
   nth 0 (split comma (key_of a b)) [] = a /\
   (forall a' b', ~ In comma a' ->
      key_of a b = key_of a' b' -> a = a' /\ b = b') /\
   (~ In comma b -> first_two (split comma (key_of a b)) = (a, b))).
Proof.
  split; [apply split_key_of_length|].
  intros Ha. split; [now apply nth0_split_key_of|].
  split.
  - intros a' b' Ha' E. now apply (@key_of_inj a b a' b').
  - intros Hb. now apply first_two_key_of.
Qed.

(** Instances of X13: the key [B,0] decodes to its pair, and the key of
    the pair of [a,b] and [c] still has at least two pieces. *)
Lemma X13_keys_decode_witness :
  ~ In comma (js "B") /\
  key_of (js "B") (js "0") = js "B,0" /\
  first_two (split comma (key_of (js "B") (js "0"))) = (js "B", js "0") /\
  In comma (js "a,b") /\
  2 <= List.length (split comma (key_of (js "a,b") (js "c"))).
Proof.
  assert (Ha : ~ In comma (js "B")) by (vm_compute; intuition discriminate).
  assert (Hb : ~ In comma (js "0")) by (vm_compute; intuition discriminate).
  destruct (@X13_keys_decode (js "B") (js "0")) as (_ & H).
  destruct (H Ha) as (_ & _ & H').
  destruct (@X13_keys_decode (js "a,b") (js "c")) as (Hl & _).
  split; [exact Ha|]. split; [reflexivity|]. split; [exact (H' Hb)|].
  split; [vm_compute; tauto | exact Hl].
Defined.

(** ** What the export lists *)

Lemma In_of_entries_iff {V} (l : list (jsstring * V)) k v :
  In (k, v) (JsMap.of_entries l) <-> assoc_last k l = Some v.
Proof.
  rewrite <- get_of_entries. split.
  - apply In_get, NoDup_keys_of_entries.
  - apply get_In.
Qed.

(** X14. For every configuration that constructs, whatever its
    duplicates, [getStructure] lists each declared state, each symbol and
    each accepting state exactly once, gives back the initial state, and
    lists exactly one output per state that has any: the last one
    configured for it. *)
Theorem X14_export_lists_each_member_once
  (c : Config.FSMConfig) (m : Query.FiniteStateMachine)
  (d : Driver.FiniteStateMachine) :
  Query.constructor c = Ok m ->
  Driver.constructor c = Ok d ->
  Driver.getStructure d = Query.getStructure m /\
  Config.initialState (Query.getStructure m) = Config.initialState c /\
  (NoDup (Config.states (Query.getStructure m)) /\
   forall x, In x (Config.states (Query.getStructure m))
             <-> In x (Config.states c)) /\
  (NoDup (Config.alphabet (Query.getStructure m)) /\
   forall x, In x (Config.alphabet (Query.getStructure m))
             <-> In x (Config.alphabet c)) /\
  (NoDup (Config.acceptingStates (Query.getStructure m)) /\
   forall x, In x (Config.acceptingStates (Query.getStructure m))
             <-> In x (Config.acceptingStates c)) /\
  (NoDup (map fst (Config.outputs (Query.getStructure m))) /\
   forall s v, In (s, v) (Config.outputs (Query.getStructure m))
               <-> assoc_last s (Config.outputs c) = Some v).
Proof.
  intros Hm Hd.
  apply query_constructor_Ok in Hm. destruct Hm as (_ & ->).
  apply driver_constructor_Ok in Hd. destruct Hd as (_ & ->).
  split; [reflexivity|]. split; [reflexivity|].
  unfold Query.getStructure, JsSet.to_array, JsMap.entries. simpl.
  split; [split; [apply NoDup_of_array | intros x; apply In_of_array]|].
  split; [split; [apply NoDup_of_array | intros x; apply In_of_array]|].
  split; [split; [apply NoDup_of_array | intros x; apply In_of_array]|].
  split; [apply NoDup_keys_of_entries | intros s v; apply In_of_entries_iff].
Qed.

(** An instance of X14 with a state and an output given twice. *)
Lemma X14_export_lists_each_member_once_witness :
  let c := {| Config.states := [js "S"; js "T"; js "S"];
              Config.alphabet := [js "a"];
              Config.initialState := js "S";
              Config.acceptingStates := [js "T"; js "T"];
              Config.transitions := [(js "S", js "a", js "T")];
              Config.outputs := [(js "S", VNum 1); (js "S", VNum 2)] |} in
  Query.constructor c = Ok (query_built c) /\
  Driver.constructor c = Ok (driver_built c) /\
  Config.states (Query.getStructure (query_built c)) = [js "S"; js "T"] /\
  NoDup (Config.states (Query.getStructure (query_built c))) /\
  Config.outputs (Query.getStructure (query_built c)) = [(js "S", VNum 2)].
Proof.
  intros c.
  assert (Hq : Query.constructor c = Ok (query_built c))
    by (vm_compute; reflexivity).
  assert (Hd : Driver.constructor c = Ok (driver_built c))
    by (vm_compute; reflexivity).
  destruct (@X14_export_lists_each_member_once c (query_built c)
              (driver_built c) Hq Hd) as (_ & _ & (H & _) & _).
  split; [exact Hq|]. split; [exact Hd|].
  split; [vm_compute; reflexivity|].
  split; [exact H | vm_compute; reflexivity].
Defined.

(** ** The queries and the configuration *)

(** X15. On a machine of [src/src/index.ts], at any moment: [isValidState]
    and [isValidSymbol] answer membership in the configured states and
    alphabet; for a declared state [isAcceptingState] tells whether it is
    among the configured accepting states and [getOutput] returns the last
    output configured for it, or [undefined] when there is none; for an
    undeclared state both throw [InvalidStateError] carrying that state. *)
Theorem X15_queries_read_the_configuration
  (c : Config.FSMConfig) (m : Query.FiniteStateMachine)
  (calls : list QueryCalls.call) (s : StateName) (a : InputSymbol) :
  Query.constructor c = Ok m ->
  (Query.isValidState (QueryCalls.perform_all calls m) s = true
   <-> In s (Config.states c)) /\
  (Query.isValidSymbol (QueryCalls.perform_all calls m) a = true
   <-> In a (Config.alphabet c)) /\
  (In s (Config.states c) ->
   Query.isAcceptingState (QueryCalls.perform_all calls m) s
   = Ok (declared s (Config.acceptingStates c)) /\
   Query.getOutput (QueryCalls.perform_all calls m) s
   = Ok (match assoc_last s (Config.outputs c) with
         | Some v => v
         | None => VUndefined
         end)) /\
  (~ In s (Config.states c) ->
   Query.isAcceptingState (QueryCalls.perform_all calls m) s
   = Throw (InvalidStateError s) /\
   Query.getOutput (QueryCalls.perform_all calls m) s
   = Throw (InvalidStateError s)).
Proof.
  intros Hm.
  destruct (@query_reachable c m calls Hm) as (-> & _ & q & _ & ->).
  change (Query.isValidState (Query.set_currentState q (query_built c)) s)
    with (Query.isValidState (query_built c) s).
  change (Query.isValidSymbol (Query.set_currentState q (query_built c)) a)
    with (Query.isValidSymbol (query_built c) a).
  rewrite query_built_isValidState, query_built_isValidSymbol.
  split; [apply declared_In|]. split; [apply declared_In|].
  unfold Query.isAcceptingState, Query.getOutput.
  change (Query.isValidState (Query.set_currentState q (query_built c)) s)
    with (Query.isValidState (query_built c) s).
  rewrite query_built_isValidState.
  split.
  - intros Hs. apply declared_In in Hs. rewrite Hs. simpl. split.
    + f_equal. apply has_of_array.
    + f_equal. unfold get_value.
      change (Query.outputFunction
                (Query.set_currentState q (query_built c)))
        with (JsMap.of_entries (Config.outputs c)).
      now rewrite get_of_entries.
  - intros Hs. apply declared_false in Hs. rewrite Hs. simpl. auto.
Qed.

(** An instance of X15 on the machine of the test suite. *)
Lemma X15_queries_read_the_configuration_witness :
  Query.constructor abcMachine = Ok (query_built abcMachine) /\
  Query.isAcceptingState (query_built abcMachine) (js "C") = Ok true /\
  Query.getOutput (query_built abcMachine) (js "B")
  = Ok (VStr (js "Output B")) /\
  Query.isAcceptingState (query_built abcMachine) (js "D")
  = Throw (InvalidStateError (js "D")).
Proof.
  assert (Hq : Query.constructor abcMachine = Ok (query_built abcMachine))
    by (vm_compute; reflexivity).
  destruct (@X15_queries_read_the_configuration abcMachine
              (query_built abcMachine) [] (js "C") (js "0") Hq)
    as (_ & _ & HC & _).
  destruct (@X15_queries_read_the_configuration abcMachine
              (query_built abcMachine) [] (js "B") (js "0") Hq)
    as (_ & _ & HB & _).
  destruct (@X15_queries_read_the_configuration abcMachine
              (query_built abcMachine) [] (js "D") (js "0") Hq)
    as (_ & _ & _ & HD).
  split; [exact Hq|].
  split; [apply HC; vm_compute; tauto|].
  split; [apply HB; vm_compute; tauto|].
  apply HD; vm_compute; intuition discriminate.
Defined.

(** X16. The stateful queries of [src/unnamed/part_000] never throw and
    answer, at any moment, what the pure queries of [src/src/index.ts]
    answer for the current state on a machine built from the same
    configuration. *)
Theorem X16_stateful_queries_are_queries_at_current_state
  (c : Config.FSMConfig) (m : Query.FiniteStateMachine)
  (d : Driver.FiniteStateMachine) (calls : list DriverCalls.call) :
  Query.constructor c = Ok m ->
  Driver.constructor c = Ok d ->
  Query.isAcceptingState m
    (Driver.getCurrentState (DriverCalls.perform_all calls d))
  = Ok (Driver.isInAcceptingState (DriverCalls.perform_all calls d)) /\
  Query.getOutput m
    (Driver.getCurrentState (DriverCalls.perform_all calls d))
  = Ok (Driver.getOutput (DriverCalls.perform_all calls d)).
Proof.
  intros Hm Hd.
  destruct (@driver_reachable c d calls Hd) as (-> & _ & q & Hq & ->).
  apply query_constructor_Ok in Hm. destruct Hm as (_ & ->).
  change (Query.isValidState (query_built c) q = true) in Hq.
  unfold Query.isAcceptingState, Query.getOutput. simpl.
  rewrite Hq. split; reflexivity.
Qed.

(** An instance of X16 on the machine of the test suite, moved to [C]. *)
Lemma X16_stateful_queries_are_queries_at_current_state_witness :
  Query.constructor abcMachine = Ok (query_built abcMachine) /\
  Driver.constructor abcMachine = Ok (driver_built abcMachine) /\
  Query.isAcceptingState (query_built abcMachine) (js "C") = Ok true /\
  Driver.isInAcceptingState
    (DriverCalls.perform_all [DriverCalls.Process (js "00")]
       (driver_built abcMachine)) = true.
Proof.
  assert (Hq : Query.constructor abcMachine = Ok (query_built abcMachine))
    by (vm_compute; reflexivity).
  assert (Hd : Driver.constructor abcMachine = Ok (driver_built abcMachine))
    by (vm_compute; reflexivity).
  destruct (@X16_stateful_queries_are_queries_at_current_state abcMachine
              (query_built abcMachine) (driver_built abcMachine)
              [DriverCalls.Process (js "00")] Hq Hd) as (H & _).
  split; [exact Hq|]. split; [exact Hd|].
  split; [exact H | vm_compute; reflexivity].
Defined.

(** ** A failed [process] in the stateful version *)

(** X17. When [process(input)] of [src/unnamed/part_000] throws, at any
    moment of the life of a constructed machine, the code points of the
    input split into the ones consumed, the failing one and the rest; the
    machine is left in the state reached from the initial state along the
    consumed ones and nothing else has changed; the failing symbol is
    undeclared and the exception is [InvalidSymbolError], or it is
    declared, the table gives no destination or the empty string for it in
    that state, and the exception is the generic [Error]. *)
Theorem X17_driver_process_failure_state
  (c : Config.FSMConfig) (d : Driver.FiniteStateMachine)
  (calls : list DriverCalls.call) (input : jsstring)
  (e : exn) (d' : Driver.FiniteStateMachine) :
  Driver.constructor c = Ok d ->
  Driver.process input (DriverCalls.perform_all calls d) = (Throw e, d') ->
  exists pre a suf q,
    codePoints input = pre ++ a :: suf /\
    driver_follows d (Config.initialState c) pre = Some q /\
    d' = Driver.set_currentState q d /\
    ((Driver.isValidSymbol d a = false /\ e = InvalidSymbolError a) \/
     (Driver.isValidSymbol d a = true /\ driver_next d q a = None /\
      e = Error (no_transition_message q a))).
Proof.
  intros Hd Hp.
  destruct (@driver_reachable c d calls Hd) as (Eb & _ & q0 & _ & E).
  rewrite E in Hp.
  destruct (@driver_process_throws input _ e d' Hp)
    as (pre & a & suf & q & Hs & Hf & -> & Hk).
  rewrite driver_follows_set_currentState in Hf.
  exists pre, a, suf, q. subst d.
  split; [exact Hs|]. split; [exact Hf|]. split; [reflexivity | exact Hk].
Qed.

(** An instance of X17: ["002"] fails on its third symbol, in state [C]. *)
Lemma X17_driver_process_failure_state_witness :
  Driver.constructor abcMachine = Ok (driver_built abcMachine) /\
  Driver.process (js "002")
    (DriverCalls.perform_all [DriverCalls.Transition (js "0")]
       (driver_built abcMachine))
  = (Throw (InvalidSymbolError (js "2")),
     Driver.set_currentState (js "C") (driver_built abcMachine)) /\
  exists pre a suf q,
    codePoints (js "002") = pre ++ a :: suf /\
    driver_follows (driver_built abcMachine) (js "A") pre = Some q /\
    Driver.set_currentState (js "C") (driver_built abcMachine)
    = Driver.set_currentState q (driver_built abcMachine).
Proof.
  assert (Hd : Driver.constructor abcMachine = Ok (driver_built abcMachine))
    by (vm_compute; reflexivity).
  assert (Hp : Driver.process (js "002")
                 (DriverCalls.perform_all [DriverCalls.Transition (js "0")]
                    (driver_built abcMachine))
               = (Throw (InvalidSymbolError (js "2")),
                  Driver.set_currentState (js "C")
                    (driver_built abcMachine)))
    by (vm_compute; reflexivity).
  destruct (@X17_driver_process_failure_state abcMachine
              (driver_built abcMachine) [DriverCalls.Transition (js "0")]
              (js "002") _ _ Hd Hp)
    as (pre & a & suf & q & H1 & H2 & H3 & _).
  split; [exact Hd|]. split; [exact Hp|].
  exists pre, a, suf, q. split; [exact H1|]. split; [exact H2 | exact H3].
Defined.
